(** * Tic-tac-toe (script.js): a shallow embedding and its properties

    The program consists of three module-pattern singletons
    ([gameBoard], [render], [Game]) and the [createPlayer] factory.
    The embedding keeps the JavaScript object structure that matters
    for the properties below:

    - arrays live in a store and are addressed by reference, so that
      the spread copy made by [getBoard] shares its rows with the
      board;
    - a cell number is a JavaScript number (NaN, the infinities, or a
      finite value);
    - a function is a state transformer that may end normally, throw,
      run out of loop fuel, or be left waiting for an answer of the
      operator that the scripted answers do not provide. *)

From Stdlib Require Import ZArith QArith Qround Lqa Lia.
From stdpp Require Import base option list gmap strings.

Local Open Scope Z_scope.

(** ** JavaScript numbers *)

Module JsNum.

(** Finite values are kept as rationals.  Every subtraction the
    program performs ([cellNumber -= rows] and [cellNumber - 1]) is
    applied to a value between 0 and 9, where binary64 subtraction of a
    small integer is exact, so no rounding is lost by this choice. *)
Inductive jsnum : Type :=
  | NaN
  | PosInf
  | NegInf
  | Fin (q : Q).

Definition ofZ (n : Z) : jsnum := Fin (inject_Z n).

Definition Qltb (a b : Q) : bool := negb (Qle_bool b a).

(** [a < b]; false as soon as one side is NaN. *)
Definition lt (a b : jsnum) : bool :=
  match a, b with
  | NaN, _ | _, NaN => false
  | PosInf, _ => false
  | _, NegInf => false
  | NegInf, _ => true
  | Fin _, PosInf => true
  | Fin x, Fin y => Qltb x y
  end.

(** [a > b]. *)
Definition gt (a b : jsnum) : bool := lt b a.

(** [a - b]. *)
Definition sub (a b : jsnum) : jsnum :=
  match a, b with
  | NaN, _ | _, NaN => NaN
  | PosInf, PosInf | NegInf, NegInf => NaN
  | PosInf, _ => PosInf
  | NegInf, _ => NegInf
  | Fin _, PosInf => NegInf
  | Fin _, NegInf => PosInf
  | Fin x, Fin y => Fin (x - y)
  end.

Definition isInteger (q : Q) : bool := Qeq_bool (inject_Z (Qfloor q)) q.

(** A number used as a property key of an array names an element only
    when it is a non-negative integer; every other key (a fraction,
    NaN, a negative number) names an ordinary property, which the
    arrays of this program never have. *)
Definition arrayIndex (k : jsnum) : option nat :=
  match k with
  | Fin q =>
      if isInteger q && (0 <=? Qfloor q) then Some (Z.to_nat (Qfloor q))
      else None
  | _ => None
  end.

End JsNum.

Import JsNum.

(** ** Players *)

(** [prompt] answers with the text typed, or with [null] when the
    dialog is dismissed. *)
Definition jsname := option string.

(** [createPlayer(name, playerMark)]: the returned object closes over
    its two arguments and exposes them through two accessors. *)
Record Player : Type := createPlayer {
  getPlayerName : jsname;
  getPlayerMark : string;
}.

Global Instance Player_eq_dec : EqDecision Player.
Proof. solve_decision. Defined.

(** ** The store and the module states *)

Definition loc := nat.

Inductive event : Type :=
  | Log (line : string)
  | Alert (msg : string)
  | Prompt (msg : string)
  | Confirm (msg : string).

Record State : Type := mkState {
  (** row arrays: arrays of strings *)
  rowStore : gmap loc (list string);
  (** grid arrays: arrays whose elements are references to rows *)
  gridStore : gmap loc (list loc);
  (** [const board] of the gameBoard closure *)
  board : loc;
  (** [let filledCellCount] of the gameBoard closure; it only ever
      counts cells, so it stays an integer far below 2^53 *)
  filledCellCount : Z;
  (** [let player1], [let player2] of the Game closure; [None] is null *)
  player1 : option Player;
  player2 : option Player;
  (** what was written to the console and shown in dialogs, oldest first *)
  output : list event;
}.

Definition set_rowStore (f : gmap loc (list string) → gmap loc (list string))
    (σ : State) : State :=
  mkState (f (rowStore σ)) (gridStore σ) (board σ) (filledCellCount σ)
          (player1 σ) (player2 σ) (output σ).

Definition set_gridStore (f : gmap loc (list loc) → gmap loc (list loc))
    (σ : State) : State :=
  mkState (rowStore σ) (f (gridStore σ)) (board σ) (filledCellCount σ)
          (player1 σ) (player2 σ) (output σ).

Definition set_filledCellCount (f : Z → Z) (σ : State) : State :=
  mkState (rowStore σ) (gridStore σ) (board σ) (f (filledCellCount σ))
          (player1 σ) (player2 σ) (output σ).

Definition set_players (p1 p2 : option Player) (σ : State) : State :=
  mkState (rowStore σ) (gridStore σ) (board σ) (filledCellCount σ)
          p1 p2 (output σ).

Definition emit (e : event) (σ : State) : State :=
  mkState (rowStore σ) (gridStore σ) (board σ) (filledCellCount σ)
          (player1 σ) (player2 σ) (output σ ++ [e]).

(** ** Computations *)

Inductive result (A : Type) : Type :=
  | Ok (a : A) (σ : State)
  | Throw (what : string)
  | OutOfFuel
  | Awaiting (σ : State).

Arguments Ok {A} a σ.
Arguments Throw {A} what.
Arguments OutOfFuel {A}.
Arguments Awaiting {A} σ.

Definition M (A : Type) : Type := State → result A.

Definition ret {A} (a : A) : M A := λ σ, Ok a σ.

Definition bind {A B} (m : M A) (k : A → M B) : M B :=
  λ σ, match m σ with
       | Ok a σ' => k a σ'
       | Throw w => Throw w
       | OutOfFuel => OutOfFuel
       | Awaiting σ' => Awaiting σ'
       end.

Definition throw {A} (what : string) : M A := λ _, Throw what.
Definition modify (f : State → State) : M unit := λ σ, Ok tt (f σ).

Global Instance M_ret : MRet M := @ret.
Global Instance M_bind : MBind M := λ A B k m, bind m k.

(** Run [body] for each element in order, as a [for] loop does. *)
Fixpoint forEach {A} (xs : list A) (body : A → M unit) : M unit :=
  match xs with
  | [] => mret tt
  | x :: xs' => _ ← body x; forEach xs' body
  end.

(** *** Array primitives *)

(** A value read out of an array is an [option]: [None] is [undefined]. *)

(** [a[i]] for a grid array [a]. *)
Definition gridElem (a : loc) (i : nat) : M (option loc) :=
  λ σ, match gridStore σ !! a with
       | Some rows => Ok (rows !! i) σ
       | None => Throw "dangling grid reference"
       end.

(** [a.length] for a grid array [a]. *)
Definition gridLength (a : loc) : M nat :=
  λ σ, match gridStore σ !! a with
       | Some rows => Ok (length rows) σ
       | None => Throw "dangling grid reference"
       end.

(** The row array a value refers to; reading a property of [undefined]
    is a TypeError. *)
Definition rowOf (r : option loc) : M (loc * list string) :=
  λ σ, match r with
       | None => Throw "TypeError: cannot read properties of undefined"
       | Some l =>
           match rowStore σ !! l with
           | Some cells => Ok (l, cells) σ
           | None => Throw "dangling row reference"
           end
       end.

(** [r[k]] for a row value [r] and a numeric key [k]. *)
Definition rowElem (r : option loc) (k : jsnum) : M (option string) :=
  '(_, cells) ← rowOf r;
  mret (match arrayIndex k with
       | Some j => cells !! j
       | None => None
       end).

(** [r[k] = v].  The only assignments in the program write to an index
    that was just read or that is below [length]; a write that would
    extend the array or create a named property is outside what the
    store represents and is reported as such. *)
Definition rowAssign (r : option loc) (k : jsnum) (v : string) : M unit :=
  '(l, cells) ← rowOf r;
  match arrayIndex k with
  | Some j =>
      if bool_decide (j < length cells)%nat
      then modify (set_rowStore <[l := <[j := v]> cells]>)
      else throw "unsupported: write beyond the end of a row"
  | None => throw "unsupported: write to a named property"
  end.

(** ** The gameBoard module *)

Module gameBoard.

Definition rows : Z := 3.
Definition cols : Z := 3.
Definition totalCellCount : Z := rows * cols.

(** The state right after the module body has run: three distinct row
    arrays of three blanks, the [board] array that refers to them, and
    a zero counter.  Game's [player1] and [player2] start as null. *)
Definition initial : State :=
  mkState {[ 1%nat := [" "; " "; " "];
             2%nat := [" "; " "; " "];
             3%nat := [" "; " "; " "] ]}
          {[ 0%nat := [1%nat; 2%nat; 3%nat] ]}
          0%nat 0 None None [].

Definition boardRef : M loc := λ σ, Ok (board σ) σ.

(** The loop of lines 50-53:
    [while (cellNumber > rows) { rowIndex++; cellNumber -= rows; }].
    It yields the final [rowIndex] and [cellNumber]. *)
Fixpoint rowLoop (fuel : nat) (rowIndex : nat) (cellNumber : jsnum)
    : M (nat * jsnum) :=
  if gt cellNumber (ofZ rows) then
    match fuel with
    | O => λ _, OutOfFuel
    | S fuel' => rowLoop fuel' (S rowIndex) (sub cellNumber (ofZ rows))
    end
  else mret (rowIndex, cellNumber).

(** Lines 57-64: place the mark if the cell is empty. *)
Definition placeMark (rowIndex : nat) (colIndex : jsnum)
    (playerMark : string) : M bool :=
  b ← boardRef;
  r ← gridElem b rowIndex;
  v ← rowElem r colIndex;
  if bool_decide (v = Some " ") then
    r' ← gridElem b rowIndex;
    _ ← rowAssign r' colIndex playerMark;
    _ ← modify (set_filledCellCount Z.succ);
    mret true
  else mret false.

(** Lines 46-55: the loop followed by [colIndex = cellNumber - 1]. *)
Definition indices (fuel : nat) (cellNumber : jsnum) : M (nat * jsnum) :=
  '(rowIndex, cellNumber) ← rowLoop fuel 0 cellNumber;
  mret (rowIndex, sub cellNumber (ofZ 1)).

Definition setPlayerPosition (fuel : nat) (cellNumber : jsnum)
    (playerMark : string) : M bool :=
  if lt cellNumber (ofZ 1) || gt cellNumber (ofZ 9) then mret false
  else
    '(rowIndex, colIndex) ← indices fuel cellNumber;
    placeMark rowIndex colIndex playerMark.

(** [return [...board]]: a new array object holding the elements of
    [board], that is, the same three row references. *)
Definition getBoard : M loc :=
  λ σ, match gridStore σ !! board σ with
       | Some rowRefs =>
           let a := fresh (dom (rowStore σ) ∪ dom (gridStore σ)) in
           Ok a (set_gridStore <[a := rowRefs]> σ)
       | None => Throw "dangling grid reference"
       end.

Definition getBoardRowCount : M Z := mret rows.
Definition getBoardColCount : M Z := mret cols.
Definition getTotalCellCount : M Z := mret totalCellCount.
Definition getFilledCellCount : M Z := λ σ, Ok (filledCellCount σ) σ.

(** The two nested [for] loops run [i] over [0 .. board.length - 1] and
    [j] over [0 .. board[i].length - 1]; the writes are all in range, so
    neither length changes while the loops run. *)
Definition resetBoard : M unit :=
  b ← boardRef;
  n ← gridLength b;
  _ ← forEach (seq 0 n) (λ i,
        r ← gridElem b i;
        '(_, cells) ← rowOf r;
        forEach (seq 0 (length cells)) (λ j,
          r' ← gridElem b i;
          rowAssign r' (ofZ (Z.of_nat j)) " "));
  modify (set_filledCellCount (λ _, 0)).

End gameBoard.

(** ** Views of the board *)

(** The row references held by [board]. *)
Definition boardRows (σ : State) : list loc :=
  default [] (gridStore σ !! board σ).

(** The grid as a list of rows, read through [board]. *)
Definition grid (σ : State) : list (list string) :=
  (λ l, default [] (rowStore σ !! l)) <$> boardRows σ.

(** The content of cell (row, col), if there is such a cell. *)
Definition cellAt (σ : State) (row col : nat) : option string :=
  cells ← grid σ !! row; cells !! col.

Definition nonEmpty (cell : string) : bool := negb (bool_decide (cell = " ")).

(** Number of non-empty cells of the grid. *)
Definition occupied (σ : State) : Z :=
  Z.of_nat (length (List.filter nonEmpty (concat (grid σ)))).

(** The shape the module sets up: [board] holds three distinct rows of
    three cells each. *)
Definition shape (σ : State) : Prop :=
  length (boardRows σ) = 3%nat ∧
  NoDup (boardRows σ) ∧
  Forall (λ l, length <$> rowStore σ !! l = Some 3%nat) (boardRows σ) ∧
  is_Some (gridStore σ !! board σ).

Global Instance shape_dec σ : Decision (shape σ).
Proof. unfold shape. apply _. Defined.

(** The board invariant of the data model. *)
Definition boardInv (σ : State) : Prop :=
  shape σ ∧ filledCellCount σ = occupied σ.

Global Instance boardInv_dec σ : Decision (boardInv σ).
Proof. unfold boardInv. apply _. Defined.

(** ** The specification's index formula *)

(** [row = (cellNumber - 1) div 3], [col = (cellNumber - 1) mod 3], as
    the specification words it. *)
Definition specCoordinates (cellNumber : Z) : Z * Z :=
  ((cellNumber - 1) `div` 3, (cellNumber - 1) `mod` 3).

(** ** The render module *)

Module render.

Definition newline : string := String (Ascii.ascii_of_nat 10) "".

(** [`${v}`] for a cell value. *)
Definition show (v : option string) : string := default "undefined" v.

Definition renderGameBoard : M unit :=
  _gameBoard ← gameBoard.getBoard;
  gameBoardRowCount ← gameBoard.getBoardRowCount;
  _ ← forEach (seq 0 (Z.to_nat gameBoardRowCount)) (λ row,
        r ← gridElem _gameBoard row;
        '(_, cells) ← rowOf r;
        let colValue1 := cells !! 0%nat in
        let colValue2 := cells !! 1%nat in
        let colValue3 := cells !! 2%nat in
        _ ← modify (emit (Log (" " +:+ show colValue1 +:+ " | " +:+
                               show colValue2 +:+ " | " +:+
                               show colValue3 +:+ " ")));
        if bool_decide (row = 0%nat) || bool_decide (row = 1%nat)
        then modify (emit (Log "---|---|---"))
        else mret tt);
  modify (emit (Log newline)).

End render.

(** ** The Game module *)

Module Game.

Definition winPositions : list (list (nat * nat)) :=
  [ [(0, 0); (0, 1); (0, 2)];
    [(1, 0); (1, 1); (1, 2)];
    [(2, 0); (2, 1); (2, 2)];
    [(0, 0); (1, 0); (2, 0)];
    [(0, 1); (1, 1); (2, 1)];
    [(0, 2); (1, 2); (2, 2)];
    [(0, 0); (1, 1); (2, 2)];
    [(0, 2); (1, 1); (2, 0)] ]%nat.

(** [setupPlayer], run against the answers the operator will give to
    the name prompts; it returns the answers not yet consumed.  When the
    answers run out the computation is left [Awaiting] input. *)
Fixpoint setupPlayer (answers : list jsname) : M (list jsname) :=
  match answers with
  | name1 :: name2 :: rest =>
      _ ← modify (emit (Prompt "Set player 1 name: "));
      _ ← modify (emit (Prompt "Set player 2 name: "));
      rest' ← (if bool_decide (name1 = name2) then
                 _ ← modify (emit (Alert "Both players' names cannot be the same."));
                 setupPlayer rest
               else mret rest);
      _ ← modify (set_players (Some (createPlayer name1 "X"))
                              (Some (createPlayer name2 "O")));
      mret rest'
  | [_] =>
      _ ← modify (emit (Prompt "Set player 1 name: "));
      _ ← modify (emit (Prompt "Set player 2 name: "));
      Awaiting
  | [] =>
      _ ← modify (emit (Prompt "Set player 1 name: "));
      Awaiting
  end.

(** The inner loop of [checkWinner]: how many coordinates of [pos] hold
    [mark] in the grid array [_gameBoard]. *)
Fixpoint countMatches (_gameBoard : loc) (mark : string)
    (pos : list (nat * nat)) (positionMatched : Z) : M Z :=
  match pos with
  | [] => mret positionMatched
  | (row, col) :: pos' =>
      r ← gridElem _gameBoard row;
      v ← rowElem r (ofZ (Z.of_nat col));
      countMatches _gameBoard mark pos'
        (if bool_decide (v = Some mark) then positionMatched + 1
         else positionMatched)
  end.

(** The outer loop of [checkWinner], with its early [return true]. *)
Fixpoint scanPositions (_gameBoard : loc) (mark : string)
    (positions : list (list (nat * nat))) : M bool :=
  match positions with
  | [] => mret false
  | pos :: positions' =>
      positionMatched ← countMatches _gameBoard mark pos 0;
      if positionMatched =? 3 then mret true
      else scanPositions _gameBoard mark positions'
  end.

Definition checkWinner (player : Player) : M bool :=
  _gameBoard ← gameBoard.getBoard;
  scanPositions _gameBoard (getPlayerMark player) winPositions.

(** One entry per iteration of the [while] loop of [gameLoop]: the
    value of [gameBoardFilledCellCount] when the iteration began and the
    player it selected. *)
Definition turn : Type := Z * option Player.

(** Line 208:
    [gameBoardFilledCellCount % 2 === 0 ? player1 : player2]. *)
Definition selectPlayer (gameBoardFilledCellCount : Z) (σ : State)
    : option Player :=
  if Z.rem gameBoardFilledCellCount 2 =? 0 then player1 σ else player2 σ.

Definition nameText (n : jsname) : string := default "null" n.

(** A run that has gone through some iterations and then ended with
    [r]. *)
Definition run (A : Type) : Type := list turn * result A.

Definition stopped {A} (r : result A) : run A := ([], r).

(** Lines 207-210: the loop test, the choice of the player and the
    first rendering; [body] is the rest of the iteration. *)
Definition whileHead {A} (gameBoardFilledCellCount : Z)
    (exit : State → result A)
    (body : option Player → State → run A) (σ : State) : run A :=
  if negb (gameBoardFilledCellCount =? gameBoard.totalCellCount) then
    let curPlayer := selectPlayer gameBoardFilledCellCount σ in
    match render.renderGameBoard σ with
    | Ok _ σ1 =>
        let '(h, r) := body curPlayer σ1 in
        ((gameBoardFilledCellCount, curPlayer) :: h, r)
    | Throw w => ([(gameBoardFilledCellCount, curPlayer)], Throw w)
    | OutOfFuel => ([(gameBoardFilledCellCount, curPlayer)], OutOfFuel)
    | Awaiting σ1 => ([(gameBoardFilledCellCount, curPlayer)], Awaiting σ1)
    end
  else stopped (exit σ).

(** Lines 215-233 and the way back to the loop test.  [answers] are the
    values [parseInt(prompt(...))] will produce, in order. *)
Fixpoint doWhile (fuel : nat) (answers : list jsnum)
    (curPlayer : option Player) (σ : State) : run (list jsnum) :=
  match curPlayer with
  | None => stopped (Throw "TypeError: cannot read properties of null")
  | Some p =>
      let σ0 := emit (Prompt (nameText (getPlayerName p) +:+ "'s turn:")) σ in
      match answers with
      | [] => stopped (Awaiting σ0)
      | cellNumber :: rest =>
          match gameBoard.setPlayerPosition fuel cellNumber (getPlayerMark p) σ0 with
          | Ok false σ1 => doWhile fuel rest curPlayer σ1
          | Ok true σ1 =>
              let gameBoardFilledCellCount := filledCellCount σ1 in
              match checkWinner p σ1 with
              | Ok true σ2 =>
                  stopped
                    ((_ ← render.renderGameBoard;
                      _ ← modify (emit (Alert (nameText (getPlayerName p) +:+ " won!")));
                      mret rest) σ2)
              | Ok false σ2 =>
                  if gameBoardFilledCellCount =? gameBoard.totalCellCount then
                    stopped
                      ((_ ← render.renderGameBoard;
                        _ ← modify (emit (Alert "tie!"));
                        mret rest) σ2)
                  else
                    whileHead gameBoardFilledCellCount (Ok rest)
                              (doWhile fuel rest) σ2
              | Throw w => stopped (Throw w)
              | OutOfFuel => stopped OutOfFuel
              | Awaiting σ2 => stopped (Awaiting σ2)
              end
          | Throw w => stopped (Throw w)
          | OutOfFuel => stopped OutOfFuel
          | Awaiting σ1 => stopped (Awaiting σ1)
          end
      end
  end.

Definition gameLoop (fuel : nat) (answers : list jsnum) (σ : State)
    : run (list jsnum) :=
  let gameBoardFilledCellCount := filledCellCount σ in
  let σ0 := emit (Log ("* * * GAME STARTED * * *" +:+ render.newline +:+ render.newline)) σ in
  whileHead gameBoardFilledCellCount (Ok answers) (doWhile fuel answers) σ0.

(** [start] and [restart] call each other; each round trip consumes two
    answers to [confirm], so the pair is one function recursive on
    those answers.  [names] and [cells] are the answers to the name and
    cell prompts. *)
Fixpoint start (fuel : nat) (confirms : list bool) (names : list jsname)
    (cells : list jsnum) (σ : State) : result unit :=
  match (if bool_decide (player1 σ = None) && bool_decide (player2 σ = None)
         then setupPlayer names σ else Ok names σ) with
  | Ok names1 σ1 =>
      match (gameLoop fuel cells σ1).2 with
      | Ok cells1 σ2 =>
          let σ3 := emit (Confirm "Play again?") σ2 in
          match confirms with
          | [] => Awaiting σ3
          | false :: _ => Ok tt (emit (Log "* * * GAME EXIT * * *") σ3)
          | true :: confirms1 =>
              (* restart() *)
              let σ4 := emit (Confirm "Do you want to rename players?") σ3 in
              match confirms1 with
              | [] => Awaiting σ4
              | rename :: confirms2 =>
                  let σ5 := if rename then set_players None None σ4 else σ4 in
                  match gameBoard.resetBoard σ5 with
                  | Ok _ σ6 => start fuel confirms2 names1 cells1 σ6
                  | Throw w => Throw w
                  | OutOfFuel => OutOfFuel
                  | Awaiting σ6 => Awaiting σ6
                  end
              end
          end
      | Throw w => Throw w
      | OutOfFuel => OutOfFuel
      | Awaiting σ2 => Awaiting σ2
      end
  | Throw w => Throw w
  | OutOfFuel => OutOfFuel
  | Awaiting σ1 => Awaiting σ1
  end.

End Game.

(** ** Descriptions used by the properties *)

(** The state after [mark] has been stored at index [j] of the row
    array [l], whose content was [cells], and the counter incremented. *)
Definition markCell (l : loc) (cells : list string) (j : nat)
    (mark : string) (σ : State) : State :=
  set_filledCellCount Z.succ (set_rowStore <[l := <[j := mark]> cells]> σ).

(** A key is unusable as an index when it is NaN or has a fractional
    part. *)
Definition notIntegral (c : jsnum) : Prop :=
  match c with
  | NaN => True
  | Fin q => isInteger q = false
  | _ => False
  end.

(** The state after a successful placement at (row, col). *)
Definition marked (row col : nat) (mark : string) (σ : State) : State :=
  match boardRows σ !! row with
  | Some l => markCell l (default [] (rowStore σ !! l)) col mark σ
  | None => σ
  end.

(** A cell number the range test of [setPlayerPosition] rejects. *)
Definition outsideRange (c : jsnum) : Prop :=
  match c with
  | Fin q => (q < 1)%Q ∨ (9 < q)%Q
  | PosInf | NegInf => True
  | NaN => False
  end.

(** The state [resetBoard] leaves behind on a board of three-cell rows:
    every row of the board is all blanks and the counter is zero. *)
Definition blankRow (rs : gmap loc (list string)) (l : loc)
    : gmap loc (list string) :=
  <[l := [" "; " "; " "]]> rs.

Definition cleared (σ : State) : State :=
  set_filledCellCount (λ _, 0)
    (set_rowStore (λ rs, foldl blankRow rs (boardRows σ)) σ).

Definition emptyGrid : list (list string) :=
  [[" "; " "; " "]; [" "; " "; " "]; [" "; " "; " "]].

(** The reference [getBoard] gives to the array it creates. *)
Definition copyRef (σ : State) : loc :=
  fresh (dom (rowStore σ) ∪ dom (gridStore σ)).

(** Cell [rc] holds [mark]. *)
Definition holds (σ : State) (mark : string) (rc : nat * nat) : bool :=
  bool_decide (cellAt σ rc.1 rc.2 = Some mark).

(** [mark] occupies every coordinate of the pattern [pos]. *)
Definition completes (σ : State) (mark : string) (pos : list (nat * nat))
    : Prop :=
  ∀ r c, (r, c) ∈ pos → cellAt σ r c = Some mark.

(** The three rows, the three columns and the two diagonals. *)
Definition rowLines : list (list (nat * nat)) :=
  (λ r, [(r, 0); (r, 1); (r, 2)]%nat) <$> [0; 1; 2]%nat.
Definition colLines : list (list (nat * nat)) :=
  (λ c, [(0, c); (1, c); (2, c)]%nat) <$> [0; 1; 2]%nat.
Definition diagLines : list (list (nat * nat)) :=
  [ [(0, 0); (1, 1); (2, 2)]; [(0, 2); (1, 1); (2, 0)] ]%nat.

(** *** What a caller can do with the array [getBoard] returned *)

(** A write at the top level of the array [a]: assigning an element,
    pushing, popping or truncating all amount to giving [a] a new list
    of elements. *)
Definition overwriteArray (a : loc) (elems : list loc) : M unit :=
  modify (set_gridStore <[a := elems]>).

(** A write one level down, [copy[i][j] = v]. *)
Definition writeThrough (a : loc) (i j : nat) (v : string) : M unit :=
  r ← gridElem a i;
  rowAssign r (ofZ (Z.of_nat j)) v.

(** The rows of the array returned by [getBoard] are fresh arrays: none
    of them is a row of the board. *)
Definition returnsFreshRows (σ : State) : Prop :=
  ∀ a σ', gameBoard.getBoard σ = Ok a σ' →
          ∀ l, l ∈ default [] (gridStore σ' !! a) → l ∉ boardRows σ.

(** A computation that, when it returns [x], has left the players
    alone and added [d x] to the counter. *)
Definition changes {A} (d : A → Z) (m : M A) : Prop :=
  ∀ σ x σ', m σ = Ok x σ' →
    player1 σ' = player1 σ ∧ player2 σ' = player2 σ ∧
    filledCellCount σ' = filledCellCount σ + d x.

Definition keeps {A} (m : M A) : Prop := changes (λ _, 0) m.

(** The text [renderGameBoard] prints for a row, and the lines it logs
    for a grid of three rows of three cells. *)
Definition rowText (a b c : string) : string :=
  " " +:+ a +:+ " | " +:+ b +:+ " | " +:+ c +:+ " ".

Definition rendering (g : list (list string)) : list event :=
  match g with
  | [[a0; a1; a2]; [b0; b1; b2]; [c0; c1; c2]] =>
      [ Log (rowText a0 a1 a2); Log "---|---|---";
        Log (rowText b0 b1 b2); Log "---|---|---";
        Log (rowText c0 c1 c2); Log render.newline ]
  | _ => []
  end.

(** Every pair of answers to the two name prompts repeats one name. *)
Fixpoint allPairsEqual (answers : list jsname) : bool :=
  match answers with
  | name1 :: name2 :: rest =>
      bool_decide (name1 = name2) && allPairsEqual rest
  | _ => true
  end.

(** The store, the board and its counter are the same in both states. *)
Definition sameBoard (σ σ' : State) : Prop :=
  rowStore σ' = rowStore σ ∧ gridStore σ' = gridStore σ ∧
  board σ' = board σ ∧ filledCellCount σ' = filledCellCount σ.

(** A computation that stopped without throwing and without running
    out of fuel, in a state that satisfies [P]. *)
Definition settled {A} (P : State → Prop) (r : result A) : Prop :=
  match r with
  | Ok _ σ' | Awaiting σ' => P σ'
  | Throw _ | OutOfFuel => False
  end.

(** Both players exist and carry the marks [setupPlayer] gives them. *)
Definition playersSet (σ : State) : Prop :=
  ∃ n1 n2, player1 σ = Some (createPlayer n1 "X") ∧
           player2 σ = Some (createPlayer n2 "O").

(** The board satisfies its invariant and both players are set. *)
Definition readyToPlay (σ : State) : Prop := boardInv σ ∧ playersSet σ.

(** How [gameLoop] announces its end: a player whose mark completes one
    of the winning patterns was told so last, or the board is full and
    the last thing shown was the tie. *)
Definition gameEnded (σ : State) : Prop :=
  (∃ p pos,
      (player1 σ = Some p ∨ player2 σ = Some p) ∧
      pos ∈ Game.winPositions ∧ completes σ (getPlayerMark p) pos ∧
      last (output σ)
      = Some (Alert (Game.nameText (getPlayerName p) +:+ " won!"))) ∨
  (filledCellCount σ = 9 ∧ last (output σ) = Some (Alert "tie!")).

(** What holds of a run of the game loop that started with the players
    [p1] and [p2] and the answers [answers]. *)
Definition loopPost (p1 p2 : option Player) (answers : list jsnum)
    (hr : Game.run (list jsnum)) : Prop :=
  Forall (λ t : Game.turn, t.1 < 9) hr.1 ∧
  match hr.2 with
  | Ok rest σ' =>
      readyToPlay σ' ∧ player1 σ' = p1 ∧ player2 σ' = p2 ∧
      gameEnded σ' ∧ rest `suffix_of` answers
  | Awaiting σ' => readyToPlay σ' ∧ player1 σ' = p1 ∧ player2 σ' = p2
  | Throw _ | OutOfFuel => False
  end.

(** What holds between the games of a session: the board invariant,
    and the players either both unset or both set. *)
Definition sessionInv (σ : State) : Prop :=
  boardInv σ ∧ ((player1 σ = None ∧ player2 σ = None) ∨ playersSet σ).

(** ** Worked runs *)

Example initial_grid :
  grid gameBoard.initial = [[" "; " "; " "]; [" "; " "; " "]; [" "; " "; " "]].
Proof. reflexivity. Qed.

Example place_5 :
  ∃ σ, gameBoard.setPlayerPosition 2 (ofZ 5) "X" gameBoard.initial = Ok true σ
       ∧ grid σ = [[" "; " "; " "]; [" "; "X"; " "]; [" "; " "; " "]]
       ∧ filledCellCount σ = 1.
Proof. eexists. split; [vm_compute; reflexivity|]. split; vm_compute; reflexivity. Qed.

Example initial_inv : boardInv gameBoard.initial.
Proof. apply (bool_decide_unpack _). vm_compute. reflexivity. Qed.

Example x_wins_top_row :
  let '(h, r) := Game.gameLoop 2 (ofZ <$> [1; 4; 2; 5; 3])
                   (set_players (Some (createPlayer (Some "ann") "X"))
                                (Some (createPlayer (Some "bob") "O"))
                                gameBoard.initial) in
  fmap (fmap getPlayerMark) (snd <$> h)
    = Some <$> ["X"; "O"; "X"; "O"; "X"] ∧
  ∃ σ, r = Ok [] σ ∧
       grid σ = [["X"; "X"; "X"]; ["O"; "O"; " "]; [" "; " "; " "]] ∧
       last (output σ) = Some (Alert "ann won!").
Proof. vm_compute. split; [reflexivity|]. eexists. repeat split. Qed.

Example tie_game :
  let '(h, r) := Game.gameLoop 2 (ofZ <$> [1; 3; 2; 4; 6; 5; 7; 9; 8])
                   (set_players (Some (createPlayer (Some "ann") "X"))
                                (Some (createPlayer (Some "bob") "O"))
                                gameBoard.initial) in
  fmap (fmap getPlayerMark) (snd <$> h)
    = Some <$> ["X"; "O"; "X"; "O"; "X"; "O"; "X"; "O"; "X"] ∧
  ∃ σ, r = Ok [] σ ∧
       grid σ = [["X"; "X"; "O"]; ["O"; "O"; "X"]; ["X"; "X"; "O"]] ∧
       filledCellCount σ = 9 ∧
       last (output σ) = Some (Alert "tie!").
Proof. vm_compute. split; [reflexivity|]. eexists. repeat split. Qed.

(** Rejected answers are asked again without a change of player. *)
Example reprompt_same_player :
  let '(h, r) := Game.gameLoop 2 [ofZ 1; NaN; ofZ 1; ofZ 0; ofZ 2]
                   (set_players (Some (createPlayer (Some "ann") "X"))
                                (Some (createPlayer (Some "bob") "O"))
                                gameBoard.initial) in
  fmap (fmap getPlayerMark) (snd <$> h) = Some <$> ["X"; "O"; "X"] ∧
  ∃ σ, r = Awaiting σ ∧
       grid σ = [["X"; "O"; " "]; [" "; " "; " "]; [" "; " "; " "]].
Proof. vm_compute. split; [reflexivity|]. eexists. repeat split. Qed.

(** A whole session: the names, one game, and no replay. *)
Example one_session :
  let r := Game.start 2 [false] [Some "ann"; Some "bob"]
             (ofZ <$> [5; 1; 3; 7; 4; 6; 2; 8; 9]) gameBoard.initial in
  ∃ σ, r = Ok tt σ ∧
       grid σ = [["O"; "X"; "X"]; ["X"; "X"; "O"]; ["O"; "O"; "X"]] ∧
       player2 σ = Some (createPlayer (Some "bob") "O") ∧
       last (output σ) = Some (Log "* * * GAME EXIT * * *").
Proof. vm_compute. eexists. repeat split. Qed.

Example rendering_lines :
  rendering [["X"; "O"; " "]; [" "; "X"; " "]; [" "; " "; "O"]]
  = [ Log " X | O |   "; Log "---|---|---";
      Log "   | X |   "; Log "---|---|---";
      Log "   |   | O "; Log render.newline ].
Proof. reflexivity. Qed.

(** * Properties *)

(** ** Facts about numbers *)

Section numbers.

Lemma Qltb_false (x y : Q) : Qltb x y = false → (y <= x)%Q.
Proof.
  unfold Qltb. intros H. apply Qle_bool_iff.
  by destruct (Qle_bool y x).
Qed.

Lemma Qltb_true (x y : Q) : Qltb x y = true → (x < y)%Q.
Proof.
  unfold Qltb. intros H. apply Qnot_le_lt. intros Hle.
  apply Qle_bool_iff in Hle. by rewrite Hle in H.
Qed.

Lemma isInteger_spec (q : Q) :
  isInteger q = true ↔ ∃ z : Z, (q == inject_Z z)%Q.
Proof.
  unfold isInteger. rewrite Qeq_bool_iff. split.
  - intros H. exists (Qfloor q). by symmetry.
  - intros [z Hz]. rewrite Hz at 1. rewrite Qfloor_Z. by symmetry.
Qed.

Lemma isInteger_minus (q : Q) (k : Z) :
  isInteger (q - inject_Z k) = isInteger q.
Proof.
  apply eq_true_iff_eq. rewrite !isInteger_spec. split; intros [z Hz].
  - exists (z + k). rewrite inject_Z_plus, <- Hz. ring.
  - exists (z - k). unfold Z.sub.
    rewrite inject_Z_plus, inject_Z_opp, <- Hz. ring.
Qed.

Lemma arrayIndex_ofZ (z : Z) :
  0 ≤ z → arrayIndex (ofZ z) = Some (Z.to_nat z).
Proof.
  intros Hz. unfold arrayIndex, ofZ.
  assert (isInteger (inject_Z z) = true) as ->
    by (apply isInteger_spec; by exists z).
  rewrite Qfloor_Z. by rewrite (proj2 (Z.leb_le 0 z) Hz).
Qed.

Lemma arrayIndex_nat (j : nat) : arrayIndex (ofZ (Z.of_nat j)) = Some j.
Proof. rewrite arrayIndex_ofZ by lia. by rewrite Nat2Z.id. Qed.

Lemma arrayIndex_fraction (q : Q) :
  isInteger q = false → arrayIndex (Fin q) = None.
Proof. intros H. unfold arrayIndex. by rewrite H. Qed.

(** What the range test of [setPlayerPosition] lets through. *)
Lemma range_guard_false (c : jsnum) :
  lt c (ofZ 1) || gt c (ofZ 9) = false →
  c = NaN ∨ ∃ q, c = Fin q ∧ (1 <= q)%Q ∧ (q <= 9)%Q.
Proof.
  intros H. apply orb_false_elim in H as [H1 H9].
  destruct c as [| | |q]; try discriminate; [by left|].
  right. exists q. split; [done|]. cbn in H1, H9.
  apply Qltb_false in H1, H9. done.
Qed.

Lemma range_guard_true (c : jsnum) :
  lt c (ofZ 1) || gt c (ofZ 9) = true →
  c = PosInf ∨ c = NegInf ∨ ∃ q, c = Fin q ∧ ((q < 1)%Q ∨ (9 < q)%Q).
Proof.
  intros H. destruct c as [| | |q]; try discriminate; auto.
  right. right. exists q. split; [done|]. cbn in H.
  apply orb_true_iff in H as [H|H]; apply Qltb_true in H; auto.
Qed.

End numbers.

(** ** The index computation of [setPlayerPosition] *)

Section indices.

Import gameBoard.

Lemma rowLoop_unfold (fuel rowIndex : nat) (c : jsnum) :
  rowLoop fuel rowIndex c =
  if gt c (ofZ rows) then
    match fuel with
    | O => λ _, OutOfFuel
    | S fuel' => rowLoop fuel' (S rowIndex) (sub c (ofZ rows))
    end
  else mret (rowIndex, c).
Proof. by destruct fuel. Qed.

Lemma Qltb_ge (x y : Q) : (y <= x)%Q → Qltb x y = false.
Proof.
  intros H. unfold Qltb. by rewrite (proj2 (Qle_bool_iff y x) H).
Qed.

Lemma rowLoop_NaN (fuel rowIndex : nat) (σ : State) :
  rowLoop fuel rowIndex NaN σ = Ok (rowIndex, NaN) σ.
Proof. by rewrite rowLoop_unfold. Qed.

Lemma Qltb_lt (x y : Q) : (x < y)%Q → Qltb x y = true.
Proof.
  intros H. unfold Qltb. destruct (Qle_bool y x) eqn:E; [|done].
  apply Qle_bool_iff in E. lra.
Qed.

Lemma rowLoop_more (fuel rowIndex : nat) (q : Q) :
  (3 < q)%Q →
  rowLoop (S fuel) rowIndex (Fin q) = rowLoop fuel (S rowIndex) (Fin (q - 3)).
Proof.
  intros H. rewrite rowLoop_unfold.
  unfold gt, lt, ofZ, rows. change (inject_Z 3) with 3%Q.
  by rewrite (Qltb_lt _ _ H).
Qed.

Lemma rowLoop_done (fuel rowIndex : nat) (q : Q) (σ : State) :
  (q <= 3)%Q → rowLoop fuel rowIndex (Fin q) σ = Ok (rowIndex, Fin q) σ.
Proof.
  intros H. rewrite rowLoop_unfold.
  unfold gt, lt, ofZ, rows. change (inject_Z 3) with 3%Q.
  by rewrite (Qltb_ge _ _ H).
Qed.

(** With a value that passed the range test the loop body runs at most
    twice, and what is left of [cellNumber] lies in (0, 3]. *)
Lemma rowLoop_finite (fuel : nat) (q : Q) (σ : State) :
  (2 ≤ fuel)%nat → (1 <= q)%Q → (q <= 9)%Q →
  ∃ (r : nat) (q' : Q),
    rowLoop fuel 0 (Fin q) σ = Ok (r, Fin q') σ ∧ (r < 3)%nat ∧
    (q' == q - inject_Z (3 * Z.of_nat r))%Q ∧ (0 < q')%Q ∧ (q' <= 3)%Q.
Proof.
  intros Hf H1 H9. destruct fuel as [|[|fuel]]; [lia..|].
  destruct (Qlt_le_dec 3 q) as [E1|E1];
    [destruct (Qlt_le_dec 3 (q - 3)) as [E2|E2]|].
  - exists 2%nat, (q - 3 - 3)%Q.
    rewrite rowLoop_more, rowLoop_more, rowLoop_done by lra.
    split; [done|]. split; [lia|].
    change (inject_Z (3 * Z.of_nat 2)) with 6%Q.
    repeat split; lra.
  - exists 1%nat, (q - 3)%Q.
    rewrite rowLoop_more, rowLoop_done by lra.
    split; [done|]. split; [lia|].
    change (inject_Z (3 * Z.of_nat 1)) with 3%Q.
    repeat split; lra.
  - exists 0%nat, q. rewrite rowLoop_done by lra.
    split; [done|]. split; [lia|].
    change (inject_Z (3 * Z.of_nat 0)) with 0%Q.
    repeat split; lra.
Qed.

End indices.

(** ** Placing a mark *)

Section placement.

Import gameBoard.

Ltac run_step :=
  unfold mbind, M_bind, mret, M_ret, bind, ret, boardRef, gridElem,
    gridLength, rowElem, rowOf, rowAssign, modify, throw; cbn.

Lemma bind_Ok {A B} (m : M A) (k : A → M B) (σ σ' : State) (x : A) :
  m σ = Ok x σ' → (m ≫= k) σ = k x σ'.
Proof. intros H. unfold mbind, M_bind, bind. by rewrite H. Qed.

Lemma placeMark_spec (σ : State) (rowRefs : list loc) (l : loc)
    (cells : list string) (r : nat) (k : jsnum) (m : string) :
  gridStore σ !! board σ = Some rowRefs →
  rowRefs !! r = Some l →
  rowStore σ !! l = Some cells →
  placeMark r k m σ =
  match arrayIndex k with
  | Some j =>
      if bool_decide (cells !! j = Some " ")
      then Ok true (markCell l cells j m σ)
      else Ok false σ
  | None => Ok false σ
  end.
Proof.
  intros Hg Hr Hc. unfold placeMark.
  repeat (progress (run_step; rewrite ?Hg, ?Hr, ?Hc)).
  destruct (arrayIndex k) as [j|] eqn:Ek; [|done].
  case_bool_decide as Hj; [|done].
  repeat (progress (run_step; rewrite ?Hg, ?Hr, ?Hc, ?Ek)).
  rewrite bool_decide_true by (by eapply lookup_lt_Some).
  done.
Qed.

Lemma shape_grid (σ : State) :
  shape σ → gridStore σ !! board σ = Some (boardRows σ).
Proof.
  intros (_ & _ & _ & [rs Hrs]). unfold boardRows. by rewrite Hrs.
Qed.

Lemma shape_row (σ : State) (r : nat) :
  shape σ → (r < 3)%nat →
  ∃ l cells, boardRows σ !! r = Some l ∧ rowStore σ !! l = Some cells
             ∧ length cells = 3%nat.
Proof.
  intros (Hlen & _ & Hall & _) Hr.
  destruct (lookup_lt_is_Some_2 (boardRows σ) r) as [l Hl]; [lia|].
  rewrite Forall_lookup in Hall. specialize (Hall _ _ Hl).
  destruct (rowStore σ !! l) as [cells|] eqn:Hc; [|done].
  exists l, cells. split; [done|]. split; [done|]. by injection Hall.
Qed.

Lemma isInteger_proper (q q' : Q) :
  (q == q')%Q → isInteger q = isInteger q'.
Proof.
  intros H. apply eq_true_iff_eq. rewrite !isInteger_spec.
  split; intros [z Hz]; exists z; [by rewrite <- H | by rewrite H].
Qed.

(** Past the range test, a call comes down to [placeMark] on one of the
    three rows. *)
Lemma setPlayerPosition_in_range (fuel : nat) (c : jsnum) (m : string)
    (σ : State) :
  (2 ≤ fuel)%nat →
  lt c (ofZ 1) || gt c (ofZ 9) = false →
  ∃ (r : nat) (k : jsnum),
    (r < 3)%nat ∧
    setPlayerPosition fuel c m σ = placeMark r k m σ ∧
    (notIntegral c → arrayIndex k = None) ∧
    (∀ j, arrayIndex k = Some j → (j < 3)%nat).
Proof.
  intros Hf Hg. unfold setPlayerPosition, indices. rewrite Hg.
  destruct (range_guard_false _ Hg) as [->|(q & -> & H1 & H9)].
  - exists 0%nat, NaN. split; [lia|]. split; [|done].
    unfold mbind, M_bind, bind. by rewrite rowLoop_NaN.
  - destruct (rowLoop_finite fuel q σ Hf H1 H9)
      as (r & q' & Hloop & Hr & Hq' & Hpos & Hle).
    exists r, (Fin (q' - inject_Z 1)). split; [done|].
    split; [unfold mbind, M_bind, bind; by rewrite Hloop|].
    split.
    + cbn. intros Hq. apply arrayIndex_fraction.
      rewrite isInteger_minus, (isInteger_proper _ _ Hq').
      by rewrite isInteger_minus.
    + intros j. unfold arrayIndex.
      destruct (isInteger _ && _) eqn:E; [|done].
      intros Hj.
      assert (j = Z.to_nat (Qfloor (q' - inject_Z 1))) as -> by congruence.
      apply andb_true_iff in E as [_ E].
      apply Z.leb_le in E.
      assert (Qfloor (q' - inject_Z 1) < 3); [|lia].
      rewrite Zlt_Qlt. eapply Qle_lt_trans; [apply Qfloor_le|].
      change (inject_Z 1) with 1%Q. change (inject_Z 3) with 3%Q. lra.
Qed.

(** Under the module's shape a call ends normally, and it either
    refuses and changes nothing or marks one blank cell. *)
Lemma setPlayerPosition_cases (fuel : nat) (c : jsnum) (m : string)
    (σ : State) :
  (2 ≤ fuel)%nat → shape σ →
  setPlayerPosition fuel c m σ = Ok false σ ∨
  ∃ (r j : nat) (l : loc) (cells : list string),
    (r < 3)%nat ∧ (j < 3)%nat ∧
    boardRows σ !! r = Some l ∧ rowStore σ !! l = Some cells ∧
    cells !! j = Some " " ∧
    setPlayerPosition fuel c m σ = Ok true (markCell l cells j m σ).
Proof.
  intros Hf Hs.
  destruct (lt c (ofZ 1) || gt c (ofZ 9)) eqn:Hg.
  { left. unfold setPlayerPosition. by rewrite Hg. }
  destruct (setPlayerPosition_in_range fuel c m σ Hf Hg)
    as (r & k & Hr & -> & _ & Hk).
  destruct (shape_row σ r Hs Hr) as (l & cells & Hl & Hc & _).
  rewrite (placeMark_spec σ _ l cells r k m (shape_grid σ Hs) Hl Hc).
  destruct (arrayIndex k) as [j|]; [|by left].
  case_bool_decide as Hj; [|by left].
  right. exists r, j, l, cells. by auto 10.
Qed.

Lemma setPlayerPosition_notIntegral (fuel : nat) (c : jsnum) (m : string)
    (σ : State) :
  (2 ≤ fuel)%nat → shape σ → notIntegral c →
  setPlayerPosition fuel c m σ = Ok false σ.
Proof.
  intros Hf Hs Hc.
  destruct (lt c (ofZ 1) || gt c (ofZ 9)) eqn:Hg.
  { unfold setPlayerPosition. by rewrite Hg. }
  destruct (setPlayerPosition_in_range fuel c m σ Hf Hg)
    as (r & k & Hr & -> & Hk & _).
  destruct (shape_row σ r Hs Hr) as (l & cells & Hl & Hcells & _).
  rewrite (placeMark_spec σ _ l cells r k m (shape_grid σ Hs) Hl Hcells).
  by rewrite (Hk Hc).
Qed.

(** An integral cell number from 1 to 9 lands on the cell the formula
    of the specification names. *)
Lemma indices_integral (fuel : nat) (n : Z) (σ : State) :
  (2 ≤ fuel)%nat → 1 ≤ n ≤ 9 →
  indices fuel (ofZ n) σ =
  Ok (Z.to_nat ((n - 1) `div` 3), ofZ ((n - 1) `mod` 3)) σ.
Proof.
  intros Hf Hn. destruct fuel as [|[|fuel]]; [lia..|].
  assert (n = 1 ∨ n = 2 ∨ n = 3 ∨ n = 4 ∨ n = 5 ∨ n = 6 ∨ n = 7 ∨ n = 8
          ∨ n = 9) as Hcases by lia.
  unfold indices, mbind, M_bind, bind.
  repeat (destruct Hcases as [->|Hcases]); try subst n;
    repeat (rewrite rowLoop_unfold; cbn); reflexivity.
Qed.

End placement.

(** ** The grid after a mark has been placed *)

Section marking.

Implicit Types (σ : State) (l : loc) (cells : list string).

Lemma grid_lookup σ (r : nat) l cells :
  boardRows σ !! r = Some l → rowStore σ !! l = Some cells →
  grid σ !! r = Some cells.
Proof.
  intros Hl Hc. unfold grid. rewrite list_lookup_fmap, Hl. cbn.
  by rewrite Hc.
Qed.

Lemma grid_markCell σ (r j : nat) l cells (m : string) :
  NoDup (boardRows σ) →
  boardRows σ !! r = Some l → rowStore σ !! l = Some cells →
  grid (markCell l cells j m σ) = <[r := <[j := m]> cells]> (grid σ).
Proof.
  intros Hnd Hl Hc. apply list_eq. intros i.
  unfold grid at 1. change (boardRows (markCell l cells j m σ))
    with (boardRows σ).
  rewrite list_lookup_fmap. cbn.
  destruct (decide (i = r)) as [->|Hne].
  - rewrite Hl. cbn. rewrite lookup_insert_eq. cbn.
    rewrite list_lookup_insert_eq; [done|].
    apply lookup_lt_is_Some. rewrite (grid_lookup σ r l cells); eauto.
  - rewrite list_lookup_insert_ne by done.
    unfold grid. rewrite list_lookup_fmap.
    destruct (boardRows σ !! i) as [l'|] eqn:Hl'; [|done]. cbn.
    rewrite lookup_insert_ne; [done|].
    intros <-. apply Hne. by eapply NoDup_lookup.
Qed.

Lemma shape_markCell σ (r j : nat) l cells (m : string) :
  shape σ → rowStore σ !! l = Some cells →
  shape (markCell l cells j m σ).
Proof.
  intros (Hlen & Hnd & Hall & Hsome) Hc. unfold shape.
  change (boardRows (markCell l cells j m σ)) with (boardRows σ).
  repeat split; try done.
  eapply Forall_impl; [exact Hall|]. intros l' Hl'. cbn.
  destruct (decide (l = l')) as [<-|Hne].
  - rewrite lookup_insert_eq. cbn. rewrite length_insert.
    by rewrite Hc in Hl'.
  - by rewrite lookup_insert_ne.
Qed.

Lemma count_insert (f : string → bool) (xs : list string) (j : nat)
    (x y : string) :
  xs !! j = Some x → f x = false → f y = true →
  length (List.filter f (<[j := y]> xs)) = S (length (List.filter f xs)).
Proof.
  revert j. induction xs as [|z xs IH]; intros [|j] Hj Hx Hy; try done.
  - injection Hj as ->. cbn. by rewrite Hx, Hy.
  - cbn in *. destruct (f z); cbn; [f_equal|]; by apply IH.
Qed.

Lemma count_concat_insert (f : string → bool) (g : list (list string))
    (r : nat) (row row' : list string) :
  g !! r = Some row →
  (length (List.filter f (concat (<[r := row']> g)))
   + length (List.filter f row)
   = length (List.filter f (concat g)) + length (List.filter f row'))%nat.
Proof.
  revert r. induction g as [|z g IH]; intros [|r] Hr; try done.
  - injection Hr as ->. cbn.
    rewrite !List.filter_app, !length_app. lia.
  - change (<[S r := row']> (z :: g)) with (z :: <[r := row']> g).
    rewrite !concat_cons, !List.filter_app, !length_app.
    specialize (IH r Hr). lia.
Qed.

Lemma occupied_markCell σ (r j : nat) l cells (m : string) :
  NoDup (boardRows σ) →
  boardRows σ !! r = Some l → rowStore σ !! l = Some cells →
  cells !! j = Some " " → m ≠ " " →
  occupied (markCell l cells j m σ) = occupied σ + 1.
Proof.
  intros Hnd Hl Hc Hj Hm. unfold occupied.
  rewrite (grid_markCell σ r j l cells m Hnd Hl Hc).
  pose proof (count_concat_insert nonEmpty (grid σ) r
                cells (<[j := m]> cells) (grid_lookup σ r l cells Hl Hc)) as H.
  rewrite (count_insert _ cells j " " m) in H; try done.
  - lia.
  - unfold nonEmpty. by rewrite bool_decide_false.
Qed.

End marking.

(** ** Calls with an integral cell number *)

Section integral.

Import gameBoard.

Lemma cellAt_Some (σ : State) (r c : nat) (v : string) :
  cellAt σ r c = Some v →
  ∃ l cells,
    gridStore σ !! board σ = Some (boardRows σ) ∧
    boardRows σ !! r = Some l ∧ rowStore σ !! l = Some cells ∧
    cells !! c = Some v.
Proof.
  unfold cellAt, grid. rewrite list_lookup_fmap.
  destruct (boardRows σ !! r) as [l|] eqn:Hl; [|done]. cbn.
  intros Hv. exists l.
  destruct (rowStore σ !! l) as [cells|] eqn:Hc; [|done].
  exists cells. repeat split; try done.
  unfold boardRows in *.
  by destruct (gridStore σ !! board σ).
Qed.

Lemma specCoordinates_range (n : Z) :
  1 ≤ n ≤ 9 →
  0 ≤ (specCoordinates n).1 ≤ 2 ∧ 0 ≤ (specCoordinates n).2 ≤ 2.
Proof.
  intros Hn. unfold specCoordinates. cbn [fst snd].
  pose proof (Z.mod_pos_bound (n - 1) 3).
  pose proof (Z.div_lt_upper_bound (n - 1) 3 3).
  pose proof (Z.div_pos (n - 1) 3). lia.
Qed.

Lemma setPlayerPosition_integral (fuel : nat) (n : Z) (m v : string)
    (σ : State) :
  (2 ≤ fuel)%nat → 1 ≤ n ≤ 9 →
  cellAt σ (Z.to_nat (specCoordinates n).1)
           (Z.to_nat (specCoordinates n).2) = Some v →
  setPlayerPosition fuel (ofZ n) m σ =
  if bool_decide (v = " ")
  then Ok true (marked (Z.to_nat (specCoordinates n).1)
                       (Z.to_nat (specCoordinates n).2) m σ)
  else Ok false σ.
Proof.
  intros Hf Hn Hv.
  destruct (specCoordinates_range n Hn) as [Hrow Hcol].
  destruct (cellAt_Some _ _ _ _ Hv) as (l & cells & Hg & Hl & Hc & Hj).
  unfold setPlayerPosition.
  replace (lt (ofZ n) (ofZ 1) || gt (ofZ n) (ofZ 9)) with false.
  2:{ symmetry. apply orb_false_intro; apply Qltb_ge;
      rewrite <- Zle_Qle; lia. }
  unfold mbind, M_bind, bind. rewrite (indices_integral fuel n σ Hf Hn).
  rewrite (placeMark_spec σ _ l cells _ _ m Hg Hl Hc).
  rewrite arrayIndex_ofZ by (unfold specCoordinates in Hcol; cbn in Hcol; lia).
  unfold specCoordinates in *. cbn [fst snd] in *. rewrite Hj.
  unfold marked. rewrite Hl, Hc. cbn [from_option id].
  destruct (decide (v = " ")) as [->|Hne].
  - by rewrite !bool_decide_true.
  - rewrite !bool_decide_false; [done..|congruence].
Qed.

Lemma cellAt_marked_other (σ : State) (r c r' c' : nat) (m : string) :
  NoDup (boardRows σ) → (r', c') ≠ (r, c) →
  cellAt (marked r c m σ) r' c' = cellAt σ r' c'.
Proof.
  intros Hnd Hne. unfold marked.
  destruct (boardRows σ !! r) as [l|] eqn:Hl; [|done].
  destruct (rowStore σ !! l) as [cells|] eqn:Hc.
  - unfold cellAt. cbn [from_option id].
    rewrite (grid_markCell σ r c l cells m Hnd Hl Hc).
    destruct (decide (r' = r)) as [->|Hr].
    + rewrite list_lookup_insert_eq
        by (apply lookup_lt_is_Some; rewrite (grid_lookup σ r l cells); eauto).
      rewrite (grid_lookup σ r l cells Hl Hc). cbn.
      apply list_lookup_insert_ne. congruence.
    + by rewrite list_lookup_insert_ne.
  - (* a row reference without a row: both sides read nothing there *)
    unfold cellAt, grid. cbn [from_option id].
    change (boardRows (markCell l [] c m σ)) with (boardRows σ).
    rewrite !list_lookup_fmap.
    destruct (boardRows σ !! r') as [l'|] eqn:Hl'; [|done]. cbn.
    destruct (decide (l' = l)) as [->|Hll].
    + rewrite lookup_insert_eq, Hc. cbn.
      assert (r' = r) as -> by (by eapply NoDup_lookup).
      by destruct c', c; try congruence.
    + by rewrite lookup_insert_ne.
Qed.

Lemma cellAt_marked_same (σ : State) (r c : nat) (m v : string) :
  NoDup (boardRows σ) → cellAt σ r c = Some v →
  cellAt (marked r c m σ) r c = Some m.
Proof.
  intros Hnd Hv.
  destruct (cellAt_Some _ _ _ _ Hv) as (l & cells & Hg & Hl & Hc & Hj).
  unfold marked. rewrite Hl, Hc. cbn [from_option id]. unfold cellAt.
  rewrite (grid_markCell σ r c l cells m Hnd Hl Hc).
  rewrite list_lookup_insert_eq
    by (apply lookup_lt_is_Some; rewrite (grid_lookup σ r l cells); eauto).
  cbn. apply list_lookup_insert_eq. by eapply lookup_lt_Some.
Qed.

End integral.

(** ** Results about [setPlayerPosition] *)

Section setPlayerPosition_results.

Import gameBoard.

(** C3. For every integral [cellNumber] from 1 to 9 the subtraction
    loop of [setPlayerPosition] ends with [rowIndex = (cellNumber - 1)
    div 3] and [colIndex = (cellNumber - 1) mod 3], the call is the
    placement step at that row and column, and the only cell it tests
    and, when blank, marks is that one. *)
Theorem setPlayerPosition_index_translation (fuel : nat) (n : Z)
    (m : string) (σ : State) :
  (2 ≤ fuel)%nat → 1 ≤ n ≤ 9 →
  let row := Z.to_nat (specCoordinates n).1 in
  let col := Z.to_nat (specCoordinates n).2 in
  indices fuel (ofZ n) σ = Ok (row, ofZ (specCoordinates n).2) σ ∧
  (row < 3)%nat ∧ (col < 3)%nat ∧
  setPlayerPosition fuel (ofZ n) m σ =
    placeMark row (ofZ (specCoordinates n).2) m σ ∧
  ∀ v, cellAt σ row col = Some v →
       setPlayerPosition fuel (ofZ n) m σ =
       if bool_decide (v = " ") then Ok true (marked row col m σ)
       else Ok false σ.
Proof.
  intros Hf Hn row col.
  destruct (specCoordinates_range n Hn) as [Hrow Hcol].
  split; [by apply indices_integral|].
  split; [subst row; lia|]. split; [subst col; lia|]. split.
  - unfold setPlayerPosition.
    replace (lt (ofZ n) (ofZ 1) || gt (ofZ n) (ofZ 9)) with false.
    2:{ symmetry. apply orb_false_intro; apply Qltb_ge;
        rewrite <- Zle_Qle; lia. }
    unfold mbind, M_bind, bind.
    by rewrite (indices_integral fuel n σ Hf Hn).
  - intros v Hv. by apply setPlayerPosition_integral.
Qed.

Lemma setPlayerPosition_index_translation_witness :
  indices 2 (ofZ 8) initial = Ok (2%nat, ofZ 1) initial.
Proof.
  exact (proj1 (setPlayerPosition_index_translation 2 8 "X" initial
                  ltac:(lia) ltac:(lia))).
Defined.

(** C4. A call whose cell number lies outside [1, 9], or whose cell
    number is an integer of [1, 9] naming a cell that already holds a
    mark, returns false and leaves the whole state (grid, counter and
    everything else) as it was. *)
Theorem setPlayerPosition_failure_atomic (fuel : nat) (c : jsnum)
    (m : string) (σ : State) :
  (2 ≤ fuel)%nat →
  outsideRange c ∨
  (∃ (n : Z) (v : string),
      c = ofZ n ∧ 1 ≤ n ≤ 9 ∧ v ≠ " " ∧
      cellAt σ (Z.to_nat (specCoordinates n).1)
               (Z.to_nat (specCoordinates n).2) = Some v) →
  setPlayerPosition fuel c m σ = Ok false σ.
Proof.
  intros Hf [Hout|(n & v & -> & Hn & Hv & Hcell)].
  - unfold setPlayerPosition.
    replace (lt c (ofZ 1) || gt c (ofZ 9)) with true; [done|].
    symmetry. destruct c as [| | |q]; try done.
    cbn. apply orb_true_iff.
    destruct Hout as [H|H]; [left|right]; by apply Qltb_lt.
  - rewrite (setPlayerPosition_integral fuel n m v σ Hf Hn Hcell).
    by rewrite bool_decide_false.
Qed.

Lemma setPlayerPosition_failure_atomic_witness :
  let σ := marked 1 1 "X" initial in
  setPlayerPosition 2 (ofZ 5) "O" σ = Ok false σ ∧
  setPlayerPosition 2 (ofZ 10) "O" σ = Ok false σ.
Proof.
  split.
  - apply setPlayerPosition_failure_atomic; [lia|].
    right. exists 5, "X". repeat split; [lia | lia | done].
  - apply setPlayerPosition_failure_atomic; [lia|].
    left. right. reflexivity.
Defined.

(** C9. On a board of the module's shape, [setPlayerPosition] ends
    normally for every number whatsoever: it neither throws nor loops.
    A false result comes with an unchanged state, and NaN and every
    number with a fractional part get a false result. *)
Theorem setPlayerPosition_total (fuel : nat) (c : jsnum) (m : string)
    (σ : State) :
  (2 ≤ fuel)%nat → shape σ →
  (∃ b σ', setPlayerPosition fuel c m σ = Ok b σ' ∧ (b = false → σ' = σ)) ∧
  (notIntegral c → setPlayerPosition fuel c m σ = Ok false σ).
Proof.
  intros Hf Hs. split.
  - destruct (setPlayerPosition_cases fuel c m σ Hf Hs)
      as [->|(r & j & l & cells & _ & _ & _ & _ & _ & ->)]; eauto.
    eexists _, _. split; [done|]. done.
  - intros Hc. by apply setPlayerPosition_notIntegral.
Qed.

Lemma setPlayerPosition_total_witness :
  setPlayerPosition 2 NaN "X" initial = Ok false initial ∧
  setPlayerPosition 2 (Fin (5 # 2)) "X" initial = Ok false initial.
Proof.
  assert (shape initial) as Hs by (apply (bool_decide_unpack _); vm_compute; reflexivity).
  split.
  - apply (setPlayerPosition_total 2 NaN "X" initial); [lia|exact Hs|exact I].
  - apply (setPlayerPosition_total 2 (Fin (5 # 2)) "X" initial);
      [lia|exact Hs|reflexivity].
Defined.

(** C10. A successful call with an integral cell number of [1, 9] on a
    blank cell stores the mark in the addressed cell, adds one to the
    counter, and leaves each of the other cells with the value it had. *)
Theorem setPlayerPosition_frame (fuel : nat) (n : Z) (m : string)
    (σ : State) :
  (2 ≤ fuel)%nat → shape σ → 1 ≤ n ≤ 9 →
  let row := Z.to_nat (specCoordinates n).1 in
  let col := Z.to_nat (specCoordinates n).2 in
  cellAt σ row col = Some " " →
  ∃ σ', setPlayerPosition fuel (ofZ n) m σ = Ok true σ' ∧
        cellAt σ' row col = Some m ∧
        (∀ r c, (r, c) ≠ (row, col) → cellAt σ' r c = cellAt σ r c) ∧
        filledCellCount σ' = filledCellCount σ + 1.
Proof.
  intros Hf Hs Hn row col Hcell.
  assert (NoDup (boardRows σ)) as Hnd by apply Hs.
  exists (marked row col m σ). split.
  - by rewrite (setPlayerPosition_integral fuel n m " " σ Hf Hn Hcell).
  - split; [by eapply cellAt_marked_same|].
    split; [intros r c Hne; by apply cellAt_marked_other|].
    destruct (cellAt_Some _ _ _ _ Hcell) as (l & cells & _ & Hl & _).
    unfold marked. rewrite Hl. cbn. lia.
Qed.

Lemma setPlayerPosition_frame_witness :
  ∃ σ', setPlayerPosition 2 (ofZ 6) "O" (marked 1 1 "X" initial) = Ok true σ' ∧
        cellAt σ' 1 2 = Some "O" ∧
        (∀ r c, (r, c) ≠ (1%nat, 2%nat) →
                cellAt σ' r c = cellAt (marked 1 1 "X" initial) r c) ∧
        filledCellCount σ' = 2.
Proof.
  apply (setPlayerPosition_frame 2 6 "O" (marked 1 1 "X" initial));
    [lia | apply (bool_decide_unpack _); vm_compute; reflexivity
     | lia | reflexivity].
Defined.

End setPlayerPosition_results.

(** ** Resetting the board *)

Section reset.

Import gameBoard.

Lemma shape_explicit (σ : State) :
  shape σ →
  ∃ l0 l1 l2 a0 a1 a2 b0 b1 b2 c0 c1 c2,
    gridStore σ !! board σ = Some [l0; l1; l2] ∧
    boardRows σ = [l0; l1; l2] ∧
    l0 ≠ l1 ∧ l0 ≠ l2 ∧ l1 ≠ l2 ∧
    rowStore σ !! l0 = Some [a0; a1; a2] ∧
    rowStore σ !! l1 = Some [b0; b1; b2] ∧
    rowStore σ !! l2 = Some [c0; c1; c2].
Proof.
  intros Hs. pose proof (shape_grid σ Hs) as Hg.
  destruct (shape_row σ 0 Hs) as (l0 & r0 & Hl0 & Hr0 & Hn0); [lia|].
  destruct (shape_row σ 1 Hs) as (l1 & r1 & Hl1 & Hr1 & Hn1); [lia|].
  destruct (shape_row σ 2 Hs) as (l2 & r2 & Hl2 & Hr2 & Hn2); [lia|].
  destruct Hs as (Hlen & Hnd & _ & _).
  destruct (boardRows σ) as [|x0 [|x1 [|x2 [|]]]] eqn:Hb; try done.
  cbn in Hl0, Hl1, Hl2.
  injection Hl0 as ->. injection Hl1 as ->. injection Hl2 as ->.
  destruct r0 as [|a0 [|a1 [|a2 [|]]]]; try done.
  destruct r1 as [|b0 [|b1 [|b2 [|]]]]; try done.
  destruct r2 as [|c0 [|c1 [|c2 [|]]]]; try done.
  exists l0, l1, l2, a0, a1, a2, b0, b1, b2, c0, c1, c2.
  apply NoDup_cons in Hnd as [Hn01 Hnd].
  apply NoDup_cons in Hnd as [Hn12 _].
  apply not_elem_of_cons in Hn01 as [? Hn02].
  apply not_elem_of_cons in Hn02 as [? _].
  apply not_elem_of_cons in Hn12 as [? _].
  repeat split; done.
Qed.

Lemma rowAssign_in_range (σ : State) (l : loc) (cells : list string)
    (j : nat) (v : string) :
  rowStore σ !! l = Some cells → (j < length cells)%nat →
  rowAssign (Some l) (ofZ (Z.of_nat j)) v σ
  = Ok tt (set_rowStore <[l := <[j := v]> cells]> σ).
Proof.
  intros Hc Hj. unfold rowAssign.
  rewrite (bind_Ok _ _ σ σ (l, cells)) by (unfold rowOf; by rewrite Hc).
  rewrite arrayIndex_nat. by rewrite bool_decide_true.
Qed.

Lemma set_rowStore_insert_twice (σ : State) (l : loc)
    (cells cells' : list string) :
  set_rowStore <[l := cells']> (set_rowStore <[l := cells]> σ)
  = set_rowStore <[l := cells']> σ.
Proof.
  unfold set_rowStore.
  cbn [rowStore gridStore board filledCellCount player1 player2 output].
  by rewrite insert_insert_eq.
Qed.

(** The inner loop of [resetBoard] on row [i] of a board whose rows
    have three cells. *)
Lemma resetBoard_row (σ : State) (rowRefs : list loc) (i : nat) (l : loc)
    (x y z : string) :
  gridStore σ !! board σ = Some rowRefs → rowRefs !! i = Some l →
  rowStore σ !! l = Some [x; y; z] →
  forEach (seq 0 3) (λ j,
    r' ← gridElem (board σ) i;
    rowAssign r' (ofZ (Z.of_nat j)) " ") σ
  = Ok tt (set_rowStore <[l := [" "; " "; " "]]> σ).
Proof.
  intros Hg Hi Hc.
  assert (∀ τ, gridStore τ = gridStore σ →
               gridElem (board σ) i τ = Ok (Some l) τ) as Helem.
  { intros τ Hτ. unfold gridElem. by rewrite Hτ, Hg, Hi. }
  cbn [seq forEach].
  rewrite (bind_Ok _ _ σ (set_rowStore <[l := [" "; y; z]]> σ) tt).
  2:{ rewrite (bind_Ok _ _ σ σ (Some l)) by (by apply Helem).
      by rewrite (rowAssign_in_range σ l [x; y; z]) by (done || (cbn; lia)). }
  rewrite (bind_Ok _ _ _ (set_rowStore <[l := [" "; " "; z]]> σ) tt).
  2:{ rewrite (bind_Ok _ _ _ _ (Some l)) by (by apply Helem).
      rewrite (rowAssign_in_range _ l [" "; y; z]);
        [|apply lookup_insert_eq|cbn; lia].
      by rewrite set_rowStore_insert_twice. }
  rewrite (bind_Ok _ _ _ (set_rowStore <[l := [" "; " "; " "]]> σ) tt).
  2:{ rewrite (bind_Ok _ _ _ _ (Some l)) by (by apply Helem).
      rewrite (rowAssign_in_range _ l [" "; " "; z]);
        [|apply lookup_insert_eq|cbn; lia].
      by rewrite set_rowStore_insert_twice. }
  done.
Qed.

(** The body of the outer loop of [resetBoard] on row [i]. *)
Lemma resetBoard_outer (σ : State) (rowRefs : list loc) (i : nat) (l : loc)
    (x y z : string) :
  gridStore σ !! board σ = Some rowRefs → rowRefs !! i = Some l →
  rowStore σ !! l = Some [x; y; z] →
  (r ← gridElem (board σ) i;
   '(_, cells) ← rowOf r;
   forEach (seq 0 (length cells)) (λ j,
     r' ← gridElem (board σ) i;
     rowAssign r' (ofZ (Z.of_nat j)) " ")) σ
  = Ok tt (set_rowStore <[l := [" "; " "; " "]]> σ).
Proof.
  intros Hg Hi Hc.
  rewrite (bind_Ok _ _ σ σ (Some l)) by (unfold gridElem; by rewrite Hg, Hi).
  rewrite (bind_Ok _ _ σ σ (l, [x; y; z])) by (unfold rowOf; by rewrite Hc).
  cbn [length]. by apply (resetBoard_row σ rowRefs i l x y z).
Qed.

Lemma resetBoard_shape (σ : State) :
  shape σ → resetBoard σ = Ok tt (cleared σ).
Proof.
  intros Hs.
  destruct (shape_explicit σ Hs)
    as (l0 & l1 & l2 & a0 & a1 & a2 & b0 & b1 & b2 & c0 & c1 & c2 &
        Hg & Hb & H01 & H02 & H12 & Hr0 & Hr1 & Hr2).
  unfold resetBoard, cleared. rewrite Hb.
  rewrite (bind_Ok _ _ σ σ (board σ)) by done.
  rewrite (bind_Ok _ _ σ σ 3%nat) by (unfold gridLength; by rewrite Hg).
  set (σ1 := set_rowStore <[l0 := [" "; " "; " "]]> σ).
  set (σ2 := set_rowStore <[l1 := [" "; " "; " "]]> σ1).
  set (σ3 := set_rowStore <[l2 := [" "; " "; " "]]> σ2).
  rewrite (bind_Ok _ _ σ σ3 tt); [done|].
  cbn [seq forEach].
  rewrite (bind_Ok _ _ σ σ1 tt)
    by (by apply (resetBoard_outer σ [l0; l1; l2] 0 l0 a0 a1 a2)).
  rewrite (bind_Ok _ _ σ1 σ2 tt).
  2:{ apply (resetBoard_outer σ1 [l0; l1; l2] 1 l1 b0 b1 b2); [done..|].
      subst σ1. unfold set_rowStore.
      cbn [rowStore]. by rewrite lookup_insert_ne. }
  rewrite (bind_Ok _ _ σ2 σ3 tt); [done|].
  apply (resetBoard_outer σ2 [l0; l1; l2] 2 l2 c0 c1 c2); [done..|].
  subst σ2 σ1. unfold set_rowStore.
  cbn [rowStore]. by rewrite !lookup_insert_ne.
Qed.

Lemma grid_cleared (σ : State) : shape σ → grid (cleared σ) = emptyGrid.
Proof.
  intros Hs.
  destruct (shape_explicit σ Hs)
    as (l0 & l1 & l2 & a0 & a1 & a2 & b0 & b1 & b2 & c0 & c1 & c2 &
        Hg & Hb & H01 & H02 & H12 & Hr0 & Hr1 & Hr2).
  unfold grid, cleared.
  change (boardRows (set_filledCellCount _ (set_rowStore _ σ)))
    with (boardRows σ).
  rewrite Hb. cbn. unfold blankRow.
  rewrite lookup_insert_eq.
  rewrite (lookup_insert_ne _ l2 l1), lookup_insert_eq by done.
  rewrite (lookup_insert_ne _ l2 l0), (lookup_insert_ne _ l1 l0),
    lookup_insert_eq by done.
  done.
Qed.

Lemma shape_cleared (σ : State) : shape σ → shape (cleared σ).
Proof.
  intros Hs.
  destruct (shape_explicit σ Hs)
    as (l0 & l1 & l2 & a0 & a1 & a2 & b0 & b1 & b2 & c0 & c1 & c2 &
        Hg & Hb & H01 & H02 & H12 & Hr0 & Hr1 & Hr2).
  destruct Hs as (Hlen & Hnd & Hall & Hsome). unfold shape, cleared.
  change (boardRows (set_filledCellCount _ (set_rowStore _ σ)))
    with (boardRows σ).
  repeat split; try done.
  rewrite Hb. cbn. unfold blankRow.
  repeat apply Forall_cons_2; [..|apply Forall_nil_2].
  - rewrite (lookup_insert_ne _ l2 l0), (lookup_insert_ne _ l1 l0),
      lookup_insert_eq by done. done.
  - rewrite (lookup_insert_ne _ l2 l1), lookup_insert_eq by done. done.
  - by rewrite lookup_insert_eq.
Qed.

Lemma cleared_idempotent (σ : State) :
  shape σ → cleared (cleared σ) = cleared σ.
Proof.
  intros Hs.
  destruct (shape_explicit σ Hs)
    as (l0 & l1 & l2 & a0 & a1 & a2 & b0 & b1 & b2 & c0 & c1 & c2 &
        Hg & Hb & H01 & H02 & H12 & Hr0 & Hr1 & Hr2).
  unfold cleared.
  change (boardRows (set_filledCellCount _ (set_rowStore _ σ)))
    with (boardRows σ).
  rewrite Hb. unfold set_filledCellCount, set_rowStore, blankRow. cbn.
  f_equal. apply map_eq. intros k.
  destruct (decide (k = l2)) as [->|?];
    [by rewrite !lookup_insert_eq|rewrite !(lookup_insert_ne _ l2 k) by done].
  destruct (decide (k = l1)) as [->|?];
    [by rewrite !lookup_insert_eq|rewrite !(lookup_insert_ne _ l1 k) by done].
  destruct (decide (k = l0)) as [->|?];
    [by rewrite !lookup_insert_eq|rewrite !(lookup_insert_ne _ l0 k) by done].
  by rewrite !lookup_insert_ne by done.
Qed.

Lemma occupied_empty (σ : State) : grid σ = emptyGrid → occupied σ = 0.
Proof. intros H. unfold occupied. by rewrite H. Qed.

Lemma grid_explicit (σ : State) :
  shape σ →
  ∃ a0 a1 a2 b0 b1 b2 c0 c1 c2,
    grid σ = [[a0; a1; a2]; [b0; b1; b2]; [c0; c1; c2]].
Proof.
  intros Hs.
  destruct (shape_explicit σ Hs)
    as (l0 & l1 & l2 & a0 & a1 & a2 & b0 & b1 & b2 & c0 & c1 & c2 &
        Hg & Hb & H01 & H02 & H12 & Hr0 & Hr1 & Hr2).
  exists a0, a1, a2, b0, b1, b2, c0, c1, c2.
  unfold grid. rewrite Hb. cbn. by rewrite Hr0, Hr1, Hr2.
Qed.

Lemma occupied_bounds (σ : State) : shape σ → 0 ≤ occupied σ ≤ 9.
Proof.
  intros Hs. unfold occupied.
  destruct (grid_explicit σ Hs)
    as (a0 & a1 & a2 & b0 & b1 & b2 & c0 & c1 & c2 & ->).
  pose proof (List.filter_length_le nonEmpty
                (concat [[a0; a1; a2]; [b0; b1; b2]; [c0; c1; c2]])) as H.
  change (length (concat [[a0; a1; a2]; [b0; b1; b2]; [c0; c1; c2]]))
    with 9%nat in H.
  lia.
Qed.

Lemma copyRef_fresh (σ : State) :
  rowStore σ !! copyRef σ = None ∧ gridStore σ !! copyRef σ = None.
Proof.
  pose proof (is_fresh (dom (rowStore σ) ∪ dom (gridStore σ))) as H.
  fold (copyRef σ) in H. rewrite elem_of_union, !elem_of_dom in H.
  split; apply eq_None_not_Some; tauto.
Qed.

Lemma getBoard_ok (σ : State) :
  is_Some (gridStore σ !! board σ) →
  getBoard σ = Ok (copyRef σ) (set_gridStore <[copyRef σ := boardRows σ]> σ).
Proof.
  intros [rs Hrs]. unfold getBoard, boardRows. by rewrite Hrs.
Qed.

(** Whatever is stored under a reference other than [board] in the
    store of grid arrays, the grid read through [board] is the same. *)
Lemma grid_other_array (σ : State) (a : loc) (elems : list loc) :
  a ≠ board σ → grid (set_gridStore <[a := elems]> σ) = grid σ.
Proof.
  intros Hne. unfold grid, boardRows. cbn. by rewrite lookup_insert_ne.
Qed.

Lemma copyRef_not_board (σ : State) :
  is_Some (gridStore σ !! board σ) → copyRef σ ≠ board σ.
Proof.
  intros [rs Hrs] Heq. destruct (copyRef_fresh σ) as [_ Hf]. congruence.
Qed.

Lemma boardInv_other_array (σ : State) (a : loc) (elems : list loc) :
  a ≠ board σ → boardInv σ → boardInv (set_gridStore <[a := elems]> σ).
Proof.
  intros Hne [(Hlen & Hnd & Hall & Hsome) Hcount].
  unfold boardInv, shape, occupied.
  rewrite (grid_other_array σ a elems Hne).
  assert (boardRows (set_gridStore <[a := elems]> σ) = boardRows σ) as ->
    by (unfold boardRows; cbn; by rewrite lookup_insert_ne).
  cbn. rewrite lookup_insert_ne by done. done.
Qed.

Lemma boardInv_setPlayerPosition (fuel : nat) (c : jsnum) (m : string)
    (σ : State) :
  (2 ≤ fuel)%nat → m ≠ " " → boardInv σ →
  ∃ b σ', setPlayerPosition fuel c m σ = Ok b σ' ∧ boardInv σ' ∧
          filledCellCount σ' = filledCellCount σ + (if b then 1 else 0).
Proof.
  intros Hf Hm [Hs Hcount].
  destruct (setPlayerPosition_cases fuel c m σ Hf Hs)
    as [->|(r & j & l & cells & Hr & Hj & Hl & Hc & Hblank & ->)].
  - exists false, σ. split; [done|]. split; [done|lia].
  - exists true, (markCell l cells j m σ). split; [done|].
    assert (NoDup (boardRows σ)) as Hnd by apply Hs.
    split; [split|].
    + by eapply shape_markCell.
    + rewrite (occupied_markCell σ r j l cells m) by done.
      cbn. lia.
    + done.
Qed.

End reset.

(** ** Results about the counter and about [resetBoard] *)

Section board_results.

Import gameBoard.

(** C5. [filledCellCount] equal to the number of non-blank cells is an
    invariant: it holds in the initial state, it bounds the counter by 0
    and 9, and every operation of the board keeps it, for
    [setPlayerPosition] with a mark other than the blank.  A call that
    returns true adds exactly one to the counter, one that returns
    false adds nothing. *)
Theorem filledCellCount_invariant (σ : State) :
  boardInv σ →
  boardInv initial ∧
  0 ≤ filledCellCount σ ≤ 9 ∧
  (∀ fuel c m, (2 ≤ fuel)%nat → m ≠ " " →
     ∃ b σ', setPlayerPosition fuel c m σ = Ok b σ' ∧ boardInv σ' ∧
             filledCellCount σ' = filledCellCount σ + (if b then 1 else 0)) ∧
  (∃ σ', resetBoard σ = Ok tt σ' ∧ boardInv σ') ∧
  (∃ a σ', getBoard σ = Ok a σ' ∧ boardInv σ') ∧
  getBoardRowCount σ = Ok 3 σ ∧ getBoardColCount σ = Ok 3 σ ∧
  getTotalCellCount σ = Ok 9 σ ∧
  getFilledCellCount σ = Ok (filledCellCount σ) σ.
Proof.
  intros Hinv. split; [apply (bool_decide_unpack _); by vm_compute|].
  split.
  { destruct Hinv as [Hs ->]. by apply occupied_bounds. }
  split; [intros fuel c m Hf Hm; by apply boardInv_setPlayerPosition|].
  split.
  { destruct Hinv as [Hs _]. exists (cleared σ).
    split; [by apply resetBoard_shape|]. split; [by apply shape_cleared|].
    by rewrite (occupied_empty _ (grid_cleared σ Hs)). }
  split; [|done].
  assert (is_Some (gridStore σ !! board σ)) as Hsome by apply Hinv.
  eexists _, _. split; [by apply getBoard_ok|].
  apply boardInv_other_array; [by apply copyRef_not_board|done].
Qed.

Lemma filledCellCount_invariant_witness :
  ∃ b σ', setPlayerPosition 2 (ofZ 9) "O" (marked 1 1 "X" initial) = Ok b σ' ∧
          boardInv σ' ∧
          filledCellCount σ' =
            filledCellCount (marked 1 1 "X" initial) + (if b then 1 else 0).
Proof.
  apply (filledCellCount_invariant (marked 1 1 "X" initial));
    [apply (bool_decide_unpack _); vm_compute; reflexivity | lia | done].
Defined.

(** C8. From any board of the module's shape, whatever its cells and
    counter hold, [resetBoard] ends normally with all nine cells blank
    and the counter at zero, and running it again changes nothing. *)
Theorem resetBoard_clears_idempotent (σ : State) :
  shape σ →
  ∃ σ', resetBoard σ = Ok tt σ' ∧
        grid σ' = emptyGrid ∧
        (∀ r c, (r < 3)%nat → (c < 3)%nat → cellAt σ' r c = Some " ") ∧
        filledCellCount σ' = 0 ∧
        resetBoard σ' = Ok tt σ'.
Proof.
  intros Hs. exists (cleared σ).
  split; [by apply resetBoard_shape|].
  split; [by apply grid_cleared|]. split.
  - intros r c Hr Hc. unfold cellAt. rewrite (grid_cleared σ Hs).
    destruct r as [|[|[|r]]]; [..|lia];
      (destruct c as [|[|[|c]]]; [..|lia]; reflexivity).
  - split; [done|].
    rewrite (resetBoard_shape (cleared σ)) by (by apply shape_cleared).
    by rewrite cleared_idempotent.
Qed.

Lemma resetBoard_clears_idempotent_witness :
  ∃ σ', resetBoard (marked 1 1 "X" initial) = Ok tt σ' ∧
        grid σ' = emptyGrid ∧
        (∀ r c, (r < 3)%nat → (c < 3)%nat → cellAt σ' r c = Some " ") ∧
        filledCellCount σ' = 0 ∧
        resetBoard σ' = Ok tt σ'.
Proof.
  apply (resetBoard_clears_idempotent (marked 1 1 "X" initial)).
  apply (bool_decide_unpack _). vm_compute. reflexivity.
Defined.

End board_results.

(** ** Detecting a winner *)

Section winner.

Import Game.

Variables (σ τ : State) (a : loc).
Hypothesis Hshape : shape σ.
Hypothesis Hcopy : gridStore τ !! a = Some (boardRows σ).
Hypothesis Hrows : rowStore τ = rowStore σ.

Lemma read_through_copy (row col : nat) (k : option string → M Z) :
  (row < 3)%nat →
  (r ← gridElem a row; v ← rowElem r (ofZ (Z.of_nat col)); k v) τ
  = k (cellAt σ row col) τ.
Proof.
  intros Hr.
  destruct (shape_row σ row Hshape Hr) as (l & cells & Hl & Hc & _).
  rewrite (bind_Ok _ _ τ τ (Some l))
    by (unfold gridElem; by rewrite Hcopy, Hl).
  rewrite (bind_Ok _ _ τ τ (cells !! col)).
  - unfold cellAt. by rewrite (grid_lookup σ row l cells Hl Hc).
  - unfold rowElem.
    rewrite (bind_Ok _ _ τ τ (l, cells))
      by (unfold rowOf; by rewrite Hrows, Hc).
    by rewrite arrayIndex_nat.
Qed.

Lemma countMatches_spec (mark : string) (pos : list (nat * nat)) (n : Z) :
  Forall (λ rc, (rc.1 < 3)%nat) pos →
  countMatches a mark pos n τ
  = Ok (n + Z.of_nat (length (List.filter (holds σ mark) pos))) τ.
Proof.
  revert n. induction pos as [|[row col] pos IH]; intros n Hpos.
  - cbn. by rewrite Z.add_0_r.
  - apply Forall_cons in Hpos as [Hrow Hpos]. cbn [countMatches].
    rewrite (read_through_copy row col) by done.
    rewrite IH by done. cbn [List.filter]. unfold holds at 2. cbn [fst snd].
    case_bool_decide; cbn [length]; f_equal; lia.
Qed.

Lemma scanPositions_spec (mark : string) (positions : list (list (nat * nat))) :
  Forall (Forall (λ rc, (rc.1 < 3)%nat)) positions →
  scanPositions a mark positions τ
  = Ok (existsb (λ pos, Z.of_nat (length (List.filter (holds σ mark) pos)) =? 3)
                positions) τ.
Proof.
  induction positions as [|pos positions IH]; intros Hall; [done|].
  apply Forall_cons in Hall as [Hpos Hall]. cbn [scanPositions existsb].
  unfold mbind, M_bind, bind. rewrite countMatches_spec by done.
  rewrite Z.add_0_l.
  destruct (_ =? 3); [done|]. by rewrite IH.
Qed.

End winner.

Section winner_results.

Import gameBoard Game.

Lemma winPositions_rows_in_range :
  Forall (Forall (λ rc : nat * nat, (rc.1 < 3)%nat)) winPositions.
Proof. repeat (constructor; cbn; try lia). Qed.

Lemma all_counted {A} (f : A → bool) (xs : list A) :
  length (List.filter f xs) = length xs ↔ ∀ x, x ∈ xs → f x = true.
Proof.
  induction xs as [|x xs IH]; cbn.
  - split; [intros _ y Hy; by apply elem_of_nil in Hy|done].
  - pose proof (List.filter_length_le f xs) as Hle.
    destruct (f x) eqn:Hx; cbn.
    + split.
      * intros Hlen y Hy. apply elem_of_cons in Hy as [->|Hy]; [done|].
        apply IH; [lia|done].
      * intros Hall. f_equal. apply IH. intros y Hy. apply Hall.
        by apply elem_of_cons; right.
    + split; [lia|]. intros Hall.
      specialize (Hall x (list_elem_of_here x xs)). congruence.
Qed.

Lemma winPositions_length (pos : list (nat * nat)) :
  pos ∈ winPositions → length pos = 3%nat.
Proof.
  unfold winPositions. rewrite !elem_of_cons, elem_of_nil.
  intros H. repeat (destruct H as [->|H]; [done|]). done.
Qed.

Lemma checkWinner_spec (player : Player) (σ : State) :
  shape σ →
  checkWinner player σ
  = Ok (existsb (λ pos, Z.of_nat (length (List.filter
                                   (holds σ (getPlayerMark player)) pos)) =? 3)
                winPositions)
       (set_gridStore <[copyRef σ := boardRows σ]> σ).
Proof.
  intros Hs. unfold checkWinner, mbind, M_bind, bind.
  rewrite getBoard_ok by apply Hs.
  apply (scanPositions_spec σ); try done.
  - cbn. by rewrite lookup_insert_eq.
  - apply winPositions_rows_in_range.
Qed.

Lemma existsb_winPositions (σ : State) (mark : string) :
  existsb (λ pos, Z.of_nat (length (List.filter (holds σ mark) pos)) =? 3)
          winPositions = true
  ↔ ∃ pos, pos ∈ winPositions ∧ completes σ mark pos.
Proof.
  rewrite existsb_exists. split.
  - intros (pos & Hin & Hcount). apply list_elem_of_In in Hin.
    exists pos. split; [done|]. intros r c Hrc.
    apply Z.eqb_eq in Hcount.
    pose proof (winPositions_length pos Hin) as Hlen.
    assert (length (List.filter (holds σ mark) pos) = length pos) as Hall
      by lia.
    rewrite all_counted in Hall. specialize (Hall (r, c) Hrc).
    unfold holds in Hall. by apply bool_decide_eq_true in Hall.
  - intros (pos & Hin & Hall). exists pos.
    split; [by apply list_elem_of_In|]. apply Z.eqb_eq.
    pose proof (winPositions_length pos Hin) as Hlen.
    assert (length (List.filter (holds σ mark) pos) = length pos) as ->;
      [|lia].
    apply all_counted. intros [r c] Hrc. unfold holds.
    apply bool_decide_eq_true. by apply Hall.
Qed.

(** C2. On a board of the module's shape [checkWinner] ends normally,
    and it returns true exactly when the player's mark occupies all
    three coordinates of one of the eight patterns (the three rows, the
    three columns and the two diagonals).  So it returns false when no
    pattern is completed, in particular for a player with a mark other
    than the blank on the all-blank board.  The call leaves the grid, the
    row arrays and the counter as they were. *)
Theorem checkWinner_iff_pattern (player : Player) (σ : State) :
  shape σ →
  winPositions = rowLines ++ colLines ++ diagLines ∧
  ∃ b σ',
    checkWinner player σ = Ok b σ' ∧
    (b = true ↔
     ∃ pos, pos ∈ winPositions ∧ completes σ (getPlayerMark player) pos) ∧
    ((∀ pos, pos ∈ winPositions → ¬ completes σ (getPlayerMark player) pos) →
     b = false) ∧
    (grid σ = emptyGrid → getPlayerMark player ≠ " " → b = false) ∧
    grid σ' = grid σ ∧ rowStore σ' = rowStore σ ∧
    filledCellCount σ' = filledCellCount σ ∧
    gridStore σ' !! board σ' = gridStore σ !! board σ.
Proof.
  intros Hs. split; [reflexivity|].
  eexists _, _. split; [by apply checkWinner_spec|].
  pose proof (existsb_winPositions σ (getPlayerMark player)) as Hiff.
  assert (copyRef σ ≠ board σ) as Hne by (apply copyRef_not_board, Hs).
  split; [done|]. split; [|split]; [| |split; [|split; [|split]]].
  - intros Hnone. apply not_true_is_false. rewrite Hiff.
    intros (pos & Hin & Hc). by apply (Hnone pos).
  - intros Hempty Hmark. apply not_true_is_false. rewrite Hiff.
    intros (pos & Hin & Hc).
    assert (∃ r c, (r, c) ∈ pos ∧ (r < 3)%nat ∧ (c < 3)%nat)
      as (r & c & Hrc & Hr & Hcol).
    { unfold winPositions in Hin. rewrite !elem_of_cons, elem_of_nil in Hin.
      repeat (destruct Hin as [->|Hin];
              [eexists _, _; split; [apply list_elem_of_here|lia]|]).
      done. }
    specialize (Hc r c Hrc). unfold cellAt in Hc. rewrite Hempty in Hc.
    destruct r as [|[|[|r]]]; [..|lia];
      (destruct c as [|[|[|c]]]; [..|lia]; cbn in Hc; congruence).
  - by apply grid_other_array.
  - done.
  - done.
  - cbn. by rewrite lookup_insert_ne.
Qed.

Lemma checkWinner_iff_pattern_witness :
  ∃ b σ',
    checkWinner (createPlayer (Some "ann") "X") initial = Ok b σ' ∧
    (b = true ↔ ∃ pos, pos ∈ winPositions ∧ completes initial "X" pos) ∧
    ((∀ pos, pos ∈ winPositions → ¬ completes initial "X" pos) → b = false) ∧
    (grid initial = emptyGrid → "X" ≠ " " → b = false) ∧
    grid σ' = grid initial ∧ rowStore σ' = rowStore initial ∧
    filledCellCount σ' = filledCellCount initial ∧
    gridStore σ' !! board σ' = gridStore initial !! board initial.
Proof.
  apply (checkWinner_iff_pattern (createPlayer (Some "ann") "X") initial).
  apply (bool_decide_unpack _). vm_compute. reflexivity.
Defined.

End winner_results.

(** ** The copy returned by [getBoard] *)

Section copy_results.

Import gameBoard.

(** C7, as stated, fails: the array returned in the initial state holds
    the board's own three rows, and a write through one of them shows
    in the board. *)
Lemma getBoard_rows_shared :
  ¬ returnsFreshRows initial ∧
  ∃ σ', (a ← getBoard; writeThrough a 0 0 "X") initial = Ok tt σ' ∧
        grid σ' = [["X"; " "; " "]; [" "; " "; " "]; [" "; " "; " "]].
Proof.
  split.
  - intros H.
    refine (H (copyRef initial) _ _ 1%nat _ _); [reflexivity | | ].
    + vm_compute. apply list_elem_of_here.
    + vm_compute. apply list_elem_of_here.
  - eexists. split; vm_compute; reflexivity.
Qed.

(** C7, amended. [getBoard] returns a reference to a new array, distinct
    from [board] and from every array that existed, whose elements are
    the board's own row references (the rows are shared, not copied).
    The call changes neither grid nor counter, and no top-level write to
    the returned array changes them either. *)
Theorem getBoard_shallow_copy (σ : State) :
  shape σ →
  ∃ a σ',
    getBoard σ = Ok a σ' ∧
    a ≠ board σ ∧ gridStore σ !! a = None ∧ rowStore σ !! a = None ∧
    gridStore σ' !! a = Some (boardRows σ) ∧
    grid σ' = grid σ ∧ rowStore σ' = rowStore σ ∧
    filledCellCount σ' = filledCellCount σ ∧
    gridStore σ' !! board σ' = gridStore σ !! board σ ∧
    ∀ elems, ∃ σ'',
      overwriteArray a elems σ' = Ok tt σ'' ∧
      grid σ'' = grid σ ∧ rowStore σ'' = rowStore σ ∧
      filledCellCount σ'' = filledCellCount σ ∧
      gridStore σ'' !! board σ'' = gridStore σ !! board σ.
Proof.
  intros Hs.
  assert (is_Some (gridStore σ !! board σ)) as Hsome by apply Hs.
  pose proof (copyRef_not_board σ Hsome) as Hne.
  destruct (copyRef_fresh σ) as [Hrow Hgrid].
  exists (copyRef σ), (set_gridStore <[copyRef σ := boardRows σ]> σ).
  split; [by apply getBoard_ok|].
  repeat (split; [first [done | by apply grid_other_array
                         | by apply lookup_insert_eq
                         | by apply lookup_insert_ne]|]).
  intros elems. eexists. split; [reflexivity|].
  split; [|split; [done|split; [done|]]].
  - unfold grid, boardRows.
    cbn [set_gridStore gridStore rowStore board].
    by rewrite !lookup_insert_ne.
  - cbn [set_gridStore gridStore rowStore board].
    by rewrite !lookup_insert_ne.
Qed.

Lemma getBoard_shallow_copy_witness :
  ∃ a σ',
    getBoard initial = Ok a σ' ∧
    a ≠ board initial ∧ gridStore initial !! a = None ∧
    rowStore initial !! a = None ∧
    gridStore σ' !! a = Some (boardRows initial) ∧
    grid σ' = grid initial ∧ rowStore σ' = rowStore initial ∧
    filledCellCount σ' = filledCellCount initial ∧
    gridStore σ' !! board σ' = gridStore initial !! board initial ∧
    ∀ elems, ∃ σ'',
      overwriteArray a elems σ' = Ok tt σ'' ∧
      grid σ'' = grid initial ∧ rowStore σ'' = rowStore initial ∧
      filledCellCount σ'' = filledCellCount initial ∧
      gridStore σ'' !! board σ'' = gridStore initial !! board initial.
Proof.
  apply (getBoard_shallow_copy initial).
  apply (bool_decide_unpack _). vm_compute. reflexivity.
Defined.

End copy_results.

(** ** Setting up the players *)

Section setup_results.

Import gameBoard Game.

(** Whatever happens in the recursive call, the assignments after it
    use the names of the outermost call: a run of [setupPlayer] that
    returns leaves the first two answers as the players' names. *)
Lemma setupPlayer_first_answers (name1 name2 : jsname)
    (rest rest' : list jsname) (σ σ' : State) :
  setupPlayer (name1 :: name2 :: rest) σ = Ok rest' σ' →
  player1 σ' = Some (createPlayer name1 "X") ∧
  player2 σ' = Some (createPlayer name2 "O").
Proof.
  cbn [setupPlayer]. unfold mbind, M_bind, bind, modify. intros H.
  destruct (if bool_decide (name1 = name2) then _ else _) as [r τ| | |];
    try discriminate.
  cbn in H. by injection H as _ <-.
Qed.

(** C1 at a failing input.  The operator answers "ann" twice, is
    alerted and prompted again, and then answers "bea" and "cy".  The
    call returns with both players named "ann": the recursive call set
    up "bea" and "cy", and the outer call then overwrote them. *)
Theorem setupPlayer_equal_names_survive :
  ∃ σ',
    setupPlayer [Some "ann"; Some "ann"; Some "bea"; Some "cy"] initial
      = Ok [] σ' ∧
    player1 σ' = Some (createPlayer (Some "ann") "X") ∧
    player2 σ' = Some (createPlayer (Some "ann") "O") ∧
    output σ' = [ Prompt "Set player 1 name: "; Prompt "Set player 2 name: ";
                  Alert "Both players' names cannot be the same.";
                  Prompt "Set player 1 name: "; Prompt "Set player 2 name: " ].
Proof. eexists. repeat split; vm_compute; reflexivity. Qed.

End setup_results.

(** ** What the operations do to the players and the counter *)

Section frames.

Import gameBoard render Game.

Lemma keeps_pure {A} (f : State → A) : keeps (λ σ, Ok (f σ) σ).
Proof. intros σ x σ' [= _ <-]. repeat split. lia. Qed.

Lemma keeps_ret {A} (x : A) : keeps (mret x : M A).
Proof. apply (keeps_pure (λ _, x)). Qed.

Lemma changes_ret {A} (d : A → Z) (x : A) :
  d x = 0 → changes d (mret x : M A).
Proof. intros Hd σ y σ' [= <- <-]. rewrite Hd. repeat split. lia. Qed.

Lemma changes_bind {A B} (d : B → Z) (m : M A) (k : A → M B) :
  keeps m → (∀ x, changes d (k x)) → changes d (m ≫= k).
Proof.
  intros Hm Hk σ y σ'. unfold mbind, M_bind, bind.
  destruct (m σ) as [x τ| | |] eqn:E; try discriminate.
  intros Hy. destruct (Hm _ _ _ E) as (H1 & H2 & Hc).
  destruct (Hk x _ _ _ Hy) as (H1' & H2' & Hc').
  repeat split; [congruence | congruence | lia].
Qed.

Lemma keeps_bind {A B} (m : M A) (k : A → M B) :
  keeps m → (∀ x, keeps (k x)) → keeps (m ≫= k).
Proof. apply changes_bind. Qed.

Lemma keeps_forEach {A} (xs : list A) (body : A → M unit) :
  (∀ x, keeps (body x)) → keeps (forEach xs body).
Proof.
  intros Hb. induction xs as [|x xs IH]; cbn [forEach].
  - apply keeps_ret.
  - apply keeps_bind; [apply Hb|]. intros _. apply IH.
Qed.

Lemma keeps_throw {A} (w : string) : keeps (throw w : M A).
Proof. intros σ x σ'. discriminate. Qed.

Lemma keeps_gridElem (a : loc) (i : nat) : keeps (gridElem a i).
Proof.
  intros σ x σ'. unfold gridElem.
  destruct (gridStore σ !! a); [|discriminate].
  intros [= _ <-]. repeat split. lia.
Qed.

Lemma keeps_rowOf (r : option loc) : keeps (rowOf r).
Proof.
  intros σ x σ'. unfold rowOf. destruct r as [l|]; [|discriminate].
  destruct (rowStore σ !! l); [|discriminate].
  intros [= _ <-]. repeat split. lia.
Qed.

Lemma keeps_rowElem (r : option loc) (k : jsnum) : keeps (rowElem r k).
Proof.
  unfold rowElem. apply keeps_bind; [apply keeps_rowOf|].
  intros [l cells]. apply keeps_ret.
Qed.

Lemma keeps_modify (f : State → State) :
  (∀ σ, player1 (f σ) = player1 σ ∧ player2 (f σ) = player2 σ ∧
        filledCellCount (f σ) = filledCellCount σ) →
  keeps (modify f).
Proof.
  intros Hf σ x σ' Heq. unfold modify in Heq. injection Heq as _ <-.
  destruct (Hf σ) as (H1 & H2 & H3).
  repeat split; [done | done | lia].
Qed.

Lemma keeps_emit (e : event) : keeps (modify (emit e)).
Proof. by apply keeps_modify. Qed.

Lemma keeps_rowAssign (r : option loc) (k : jsnum) (v : string) :
  keeps (rowAssign r k v).
Proof.
  unfold rowAssign. apply keeps_bind; [apply keeps_rowOf|].
  intros [l cells]. destruct (arrayIndex k) as [j|]; [|apply keeps_throw].
  case_bool_decide; [by apply keeps_modify|apply keeps_throw].
Qed.

Lemma keeps_getBoard : keeps getBoard.
Proof.
  intros σ x σ'. unfold getBoard.
  destruct (gridStore σ !! board σ); [|discriminate].
  intros [= _ <-]. repeat split. cbn. lia.
Qed.

Lemma keeps_renderGameBoard : keeps renderGameBoard.
Proof.
  unfold renderGameBoard.
  apply keeps_bind; [apply keeps_getBoard|]. intros a.
  apply keeps_bind; [apply keeps_ret|]. intros n.
  apply keeps_bind; [|intros _; apply keeps_emit].
  apply keeps_forEach. intros row.
  apply keeps_bind; [apply keeps_gridElem|]. intros r.
  apply keeps_bind; [apply keeps_rowOf|]. intros [l cells].
  apply keeps_bind; [apply keeps_emit|]. intros _.
  destruct (_ || _); [apply keeps_emit|apply keeps_ret].
Qed.

Lemma keeps_countMatches (a : loc) (mark : string)
    (pos : list (nat * nat)) (n : Z) :
  keeps (countMatches a mark pos n).
Proof.
  revert n. induction pos as [|[row col] pos IH]; intros n;
    cbn [countMatches].
  - apply keeps_ret.
  - apply keeps_bind; [apply keeps_gridElem|]. intros r.
    apply keeps_bind; [apply keeps_rowElem|]. intros v. apply IH.
Qed.

Lemma keeps_scanPositions (a : loc) (mark : string)
    (positions : list (list (nat * nat))) :
  keeps (scanPositions a mark positions).
Proof.
  induction positions as [|pos positions IH]; cbn [scanPositions].
  - apply keeps_ret.
  - apply keeps_bind; [apply keeps_countMatches|]. intros n.
    destruct (n =? 3); [apply keeps_ret|apply IH].
Qed.

Lemma keeps_checkWinner (player : Player) : keeps (checkWinner player).
Proof.
  unfold checkWinner. apply keeps_bind; [apply keeps_getBoard|].
  intros a. apply keeps_scanPositions.
Qed.

Lemma keeps_rowLoop (fuel rowIndex : nat) (c : jsnum) :
  keeps (rowLoop fuel rowIndex c).
Proof.
  revert rowIndex c. induction fuel as [|fuel IH]; intros rowIndex c;
    rewrite rowLoop_unfold; destruct (gt c (ofZ rows));
    try apply keeps_ret; [|apply IH].
  intros σ x σ'. discriminate.
Qed.

Lemma changes_placeMark (rowIndex : nat) (colIndex : jsnum) (m : string) :
  changes (λ b : bool, if b then 1 else 0) (placeMark rowIndex colIndex m).
Proof.
  unfold placeMark.
  apply changes_bind; [apply (keeps_pure board)|]. intros b.
  apply changes_bind; [apply keeps_gridElem|]. intros r.
  apply changes_bind; [apply keeps_rowElem|]. intros v.
  case_bool_decide; [|by apply changes_ret].
  apply changes_bind; [apply keeps_gridElem|]. intros r'.
  apply changes_bind; [apply keeps_rowAssign|]. intros _.
  intros σ x σ' [= <- <-]. repeat split.
Qed.

Lemma changes_setPlayerPosition (fuel : nat) (c : jsnum) (m : string) :
  changes (λ b : bool, if b then 1 else 0) (setPlayerPosition fuel c m).
Proof.
  unfold setPlayerPosition. destruct (_ || _); [by apply changes_ret|].
  apply changes_bind.
  - unfold indices. apply keeps_bind; [apply keeps_rowLoop|].
    intros [r c']. apply keeps_ret.
  - intros [r k]. apply changes_placeMark.
Qed.

End frames.

(** ** Whose turn it is *)

Section turns.

Import gameBoard render Game.

Lemma rem2_even (n : Z) : (Z.rem n 2 =? 0) = Z.even n.
Proof.
  rewrite Zeven_mod. apply eq_true_iff_eq. rewrite !Z.eqb_eq.
  apply Z.rem_mod_eq_0. lia.
Qed.

Lemma even_of_nat (k : nat) : Z.even (Z.of_nat k) = Nat.even k.
Proof.
  assert (Z.even (Z.of_nat k) = Nat.even k ∧
          Z.even (Z.of_nat (S k)) = Nat.even (S k)) as [H _]; [|done].
  induction k as [|k [IH1 IH2]]; [done|]. split; [done|].
  rewrite !Nat2Z.inj_succ, Z.even_succ_succ. by rewrite IH1.
Qed.

Lemma selectPlayer_even (cnt : Z) (σ : State) :
  selectPlayer cnt σ = if Z.even cnt then player1 σ else player2 σ.
Proof. unfold selectPlayer. by rewrite rem2_even. Qed.

Lemma selectPlayer_same (cnt : Z) (σ σ' : State) :
  player1 σ' = player1 σ → player2 σ' = player2 σ →
  selectPlayer cnt σ' = selectPlayer cnt σ.
Proof. unfold selectPlayer. by intros -> ->. Qed.

(** The iterations that follow a pending move: the counter goes up by
    one from one iteration to the next, and each iteration selects its
    player by line 208. *)
Lemma doWhile_history (fuel : nat) (answers : list jsnum)
    (curPlayer : option Player) (σ : State) (k : nat) (cnt : Z)
    (p : option Player) :
  (doWhile fuel answers curPlayer σ).1 !! k = Some (cnt, p) →
  cnt = filledCellCount σ + 1 + Z.of_nat k ∧ p = selectPlayer cnt σ.
Proof.
  revert curPlayer σ k.
  induction answers as [|cellNumber rest IH]; intros curPlayer σ k;
    cbn [doWhile]; destruct curPlayer as [cur|]; try done.
  set (σ0 := emit _ σ).
  assert (player1 σ0 = player1 σ ∧ player2 σ0 = player2 σ ∧
          filledCellCount σ0 = filledCellCount σ) as (He1 & He2 & He3)
    by done.
  clearbody σ0.
  destruct (setPlayerPosition fuel cellNumber (getPlayerMark cur) σ0)
    as [b σ1| | |] eqn:E; try done.
  destruct (changes_setPlayerPosition _ _ _ _ _ _ E) as (Hp1 & Hp2 & Hc1).
  destruct b.
  2:{ intros H. destruct (IH _ _ _ H) as [-> ->]. split.
      - lia.
      - apply selectPlayer_same; congruence. }
  destruct (checkWinner cur σ1) as [w σ2| | |] eqn:E2; try done.
  destruct (keeps_checkWinner _ _ _ _ E2) as (Hq1 & Hq2 & Hc2).
  destruct w; [done|].
  destruct (filledCellCount σ1 =? totalCellCount) eqn:Etot; [done|].
  unfold whileHead. rewrite Etot. cbn [negb].
  assert (filledCellCount σ1 = filledCellCount σ + 1) as Hcount
    by lia.
  assert (selectPlayer (filledCellCount σ1) σ2
          = selectPlayer (filledCellCount σ1) σ) as Hsel
    by (apply selectPlayer_same; congruence).
  destruct (renderGameBoard σ2) as [u σ3| | |] eqn:E3.
  - destruct (keeps_renderGameBoard _ _ _ E3) as (Hr1 & Hr2 & Hc3).
    destruct (doWhile fuel rest _ σ3) as [h r] eqn:E4.
    destruct k as [|k]; cbn [fst lookup list_lookup].
    + cbn [fst lookup list_lookup]. intros Heq. injection Heq as Ecnt Ep. subst cnt p. split; [lia|done].
    + intros H. specialize (IH (selectPlayer (filledCellCount σ1) σ2) σ3 k).
      rewrite E4 in IH. destruct (IH H) as [-> ->]. split; [lia|].
      apply selectPlayer_same; congruence.
  - destruct k as [|[|k]]; try done. cbn [fst lookup list_lookup]. intros Heq. injection Heq as Ecnt Ep. subst cnt p. split; [lia|done].
  - destruct k as [|[|k]]; try done. cbn [fst lookup list_lookup]. intros Heq. injection Heq as Ecnt Ep. subst cnt p. split; [lia|done].
  - destruct k as [|[|k]]; try done. cbn [fst lookup list_lookup]. intros Heq. injection Heq as Ecnt Ep. subst cnt p. split; [lia|done].
Qed.

(** C6. Every iteration of the loop of [gameLoop] selects [player1]
    when the number of filled cells at its start is even and [player2]
    when it is odd, and that number goes up by exactly one from an
    iteration to the next.  With the marks given by [setupPlayer] the
    selected mark is "X" for an even count and "O" for an odd one, and in
    a game begun on a board with no filled cell the k-th iteration
    (counting from 0) belongs to [player1] for even k and to [player2]
    for odd k. *)
Theorem gameLoop_turn_parity (fuel : nat) (answers : list jsnum)
    (σ : State) (k : nat) (cnt : Z) (p : option Player) :
  (gameLoop fuel answers σ).1 !! k = Some (cnt, p) →
  cnt = filledCellCount σ + Z.of_nat k ∧
  p = (if Z.even cnt then player1 σ else player2 σ) ∧
  (getPlayerMark <$> player1 σ = Some "X" →
   getPlayerMark <$> player2 σ = Some "O" →
   getPlayerMark <$> p = Some (if Z.even cnt then "X" else "O")) ∧
  (filledCellCount σ = 0 →
   p = if Nat.even k then player1 σ else player2 σ).
Proof.
  intros H.
  assert (cnt = filledCellCount σ + Z.of_nat k ∧ p = selectPlayer cnt σ)
    as [Hcnt Hp].
  { unfold gameLoop, whileHead in H.
    set (σ0 := emit _ σ) in H.
    assert (player1 σ0 = player1 σ ∧ player2 σ0 = player2 σ ∧
            filledCellCount σ0 = filledCellCount σ) as (He1 & He2 & He3)
      by done.
    clearbody σ0.
    assert (selectPlayer (filledCellCount σ) σ0
            = selectPlayer (filledCellCount σ) σ) as Hsel
      by (by apply selectPlayer_same).
    destruct (negb _); [|done].
    destruct (renderGameBoard σ0) as [u σ1| | |] eqn:E1.
    - destruct (keeps_renderGameBoard _ _ _ E1) as (Hr1 & Hr2 & Hc1).
      destruct (doWhile fuel answers _ σ1) as [h r] eqn:E2.
      destruct k as [|k]; cbn [fst lookup list_lookup] in H.
      + injection H as Ecnt Ep. subst cnt p. split; [lia|done].
      + pose proof (doWhile_history fuel answers
                      (selectPlayer (filledCellCount σ) σ0) σ1 k cnt p) as IH.
        rewrite E2 in IH. destruct (IH H) as [-> ->]. split; [lia|].
        apply selectPlayer_same; congruence.
    - destruct k as [|[|k]]; try done. cbn [fst lookup list_lookup] in H. injection H as Ecnt Ep. subst cnt p. split; [lia|done].
    - destruct k as [|[|k]]; try done. cbn [fst lookup list_lookup] in H. injection H as Ecnt Ep. subst cnt p. split; [lia|done].
    - destruct k as [|[|k]]; try done. cbn [fst lookup list_lookup] in H. injection H as Ecnt Ep. subst cnt p. split; [lia|done]. }
  rewrite selectPlayer_even in Hp.
  split; [done|]. split; [done|]. split.
  - intros HX HO. rewrite Hp. by destruct (Z.even cnt).
  - intros H0. rewrite Hp, Hcnt, H0, Z.add_0_l. by rewrite even_of_nat.
Qed.

Lemma gameLoop_turn_parity_witness :
  let bob := createPlayer (Some "bob") "O" in
  let σ := set_players (Some (createPlayer (Some "ann") "X")) (Some bob)
                       initial in
  3 = filledCellCount σ + Z.of_nat 3 ∧
  Some bob = (if Z.even 3 then player1 σ else player2 σ) ∧
  (getPlayerMark <$> player1 σ = Some "X" →
   getPlayerMark <$> player2 σ = Some "O" →
   getPlayerMark <$> Some bob = Some (if Z.even 3 then "X" else "O")) ∧
  (filledCellCount σ = 0 →
   Some bob = if Nat.even 3 then player1 σ else player2 σ).
Proof.
  intros bob σ.
  apply (gameLoop_turn_parity 2 (ofZ <$> [1; 4; 2; 5; 3]) σ 3 3 (Some bob)).
  vm_compute. reflexivity.
Defined.

End turns.

(** * Further properties of the board *)

Section board_more.

Import gameBoard.

Lemma setPlayerPosition_in_range_finite (fuel : nat) (q : Q) (m : string)
    (σ : State) :
  (2 ≤ fuel)%nat → (1 <= q)%Q → (q <= 9)%Q →
  ∃ (r : nat) (q' : Q),
    (r < 3)%nat ∧
    (q' == q - inject_Z (3 * Z.of_nat r))%Q ∧ (0 < q')%Q ∧ (q' <= 3)%Q ∧
    setPlayerPosition fuel (Fin q) m σ
    = placeMark r (Fin (q' - inject_Z 1)) m σ.
Proof.
  intros Hf H1 H9.
  destruct (rowLoop_finite fuel q σ Hf H1 H9)
    as (r & q' & Hloop & Hr & Hq' & Hpos & Hle).
  exists r, q'. repeat (split; [done|]).
  unfold setPlayerPosition, indices.
  replace (lt (Fin q) (ofZ 1) || gt (Fin q) (ofZ 9)) with false.
  2:{ symmetry. apply orb_false_intro; by apply Qltb_ge. }
  unfold mbind, M_bind, bind. by rewrite Hloop.
Qed.

(** A true result is only ever given for a number whose value is an
    integer from 1 to 9 and whose cell, the one the div/mod formula
    names, was blank; the state returned is the old one with that cell
    marked and the counter incremented. *)
Theorem setPlayerPosition_true_only (fuel : nat) (c : jsnum) (m : string)
    (σ σ' : State) :
  (2 ≤ fuel)%nat → shape σ →
  setPlayerPosition fuel c m σ = Ok true σ' →
  ∃ (n : Z) (q : Q),
    c = Fin q ∧ (q == inject_Z n)%Q ∧ 1 ≤ n ≤ 9 ∧
    cellAt σ (Z.to_nat (specCoordinates n).1)
             (Z.to_nat (specCoordinates n).2) = Some " " ∧
    σ' = marked (Z.to_nat (specCoordinates n).1)
                (Z.to_nat (specCoordinates n).2) m σ.
Proof.
  intros Hf Hs Hres.
  destruct (lt c (ofZ 1) || gt c (ofZ 9)) eqn:Hg.
  { unfold setPlayerPosition in Hres. rewrite Hg in Hres. discriminate. }
  destruct (range_guard_false _ Hg) as [->|(q & -> & H1 & H9)].
  { rewrite (setPlayerPosition_notIntegral fuel NaN m σ Hf Hs I) in Hres.
    discriminate. }
  destruct (setPlayerPosition_in_range_finite fuel q m σ Hf H1 H9)
    as (r & q' & Hr & Hq' & Hpos & Hle & Heq).
  rewrite Heq in Hres. clear Heq.
  destruct (shape_row σ r Hs Hr) as (l & cells & Hl & Hc & Hlen).
  rewrite (placeMark_spec σ _ l cells r _ m (shape_grid σ Hs) Hl Hc) in Hres.
  destruct (arrayIndex (Fin (q' - inject_Z 1))) as [j|] eqn:Ej;
    [|discriminate].
  case_bool_decide as Hblank; [|discriminate].
  injection Hres as <-.
  (* the column is an index below 3 and [q'] is that index plus one *)
  unfold arrayIndex in Ej.
  destruct (isInteger (q' - inject_Z 1)) eqn:Eint; [|discriminate].
  destruct (0 <=? Qfloor (q' - inject_Z 1)) eqn:E0; [|discriminate].
  cbn [andb] in Ej. apply Z.leb_le in E0.
  assert (j = Z.to_nat (Qfloor (q' - inject_Z 1))) as Hj by congruence.
  unfold isInteger in Eint. apply Qeq_bool_iff in Eint.
  assert (j < 3)%nat as Hj3 by (apply lookup_lt_Some in Hblank; lia).
  set (n := 3 * Z.of_nat r + Z.of_nat j + 1).
  assert ((n - 1) `div` 3 = Z.of_nat r) as Hdiv
    by (symmetry; apply (Z.div_unique _ _ _ (Z.of_nat j)); lia).
  assert ((n - 1) `mod` 3 = Z.of_nat j) as Hmod
    by (symmetry; apply (Z.mod_unique _ _ (Z.of_nat r)); lia).
  exists n, q. split; [done|]. split.
  { assert (inject_Z (Z.of_nat j) == q' - inject_Z 1)%Q as Hjq.
    { rewrite Hj, Z2Nat.id by done. exact Eint. }
    subst n. rewrite !inject_Z_plus, inject_Z_mult, Hjq.
    rewrite inject_Z_mult in Hq'. rewrite Hq'.
    change (inject_Z 1) with 1%Q. change (inject_Z 3) with 3%Q. ring. }
  split; [lia|].
  unfold specCoordinates. cbn [fst snd]. rewrite Hdiv, Hmod, !Nat2Z.id.
  split.
  - unfold cellAt. by rewrite (grid_lookup σ r l cells Hl Hc).
  - unfold marked. by rewrite Hl, Hc.
Qed.

Lemma setPlayerPosition_true_only_witness :
  ∃ (n : Z) (q : Q),
    Fin (14 # 2) = Fin q ∧ (q == inject_Z n)%Q ∧ 1 ≤ n ≤ 9 ∧
    cellAt initial (Z.to_nat (specCoordinates n).1)
                   (Z.to_nat (specCoordinates n).2) = Some " " ∧
    marked 2 0 "O" initial
    = marked (Z.to_nat (specCoordinates n).1)
             (Z.to_nat (specCoordinates n).2) "O" initial.
Proof.
  apply (setPlayerPosition_true_only 2 (Fin (14 # 2)) "O" initial
           (marked 2 0 "O" initial));
    [lia | apply (bool_decide_unpack _); vm_compute; reflexivity
     | vm_compute; reflexivity].
Defined.

Lemma blank_cell_not_full (σ : State) (r j : nat) :
  shape σ → cellAt σ r j = Some " " → occupied σ < 9.
Proof.
  intros Hs Hcell.
  destruct (grid_explicit σ Hs)
    as (a0 & a1 & a2 & b0 & b1 & b2 & c0 & c1 & c2 & Hg).
  pose proof (List.filter_length_le nonEmpty (concat (grid σ))) as Hle.
  destruct (decide (length (List.filter nonEmpty (concat (grid σ)))
                    = length (concat (grid σ)))) as [Hall|Hne].
  - rewrite all_counted in Hall.
    assert (" " ∈ concat (grid σ)) as Hin.
    { unfold cellAt in Hcell.
      destruct (grid σ !! r) as [cells|] eqn:Hr; [|done]. cbn in Hcell.
      apply list_elem_of_In, in_concat. exists cells.
      split; apply list_elem_of_In; by eapply list_elem_of_lookup_2. }
    specialize (Hall _ Hin). done.
  - unfold occupied. rewrite Hg in Hle, Hne.
    change (length (concat [[a0; a1; a2]; [b0; b1; b2]; [c0; c1; c2]]))
      with 9%nat in Hle, Hne.
    rewrite Hg. lia.
Qed.

(** Once the counter has reached 9 on a board that satisfies the
    invariant, no cell number and no mark is accepted any more: every
    call returns false and changes nothing. *)
Theorem full_board_refuses (fuel : nat) (c : jsnum) (m : string)
    (σ : State) :
  (2 ≤ fuel)%nat → boardInv σ → filledCellCount σ = 9 →
  setPlayerPosition fuel c m σ = Ok false σ.
Proof.
  intros Hf [Hs Hcount] Hfull.
  destruct (setPlayerPosition_cases fuel c m σ Hf Hs)
    as [->|(r & j & l & cells & Hr & Hj & Hl & Hc & Hblank & _)]; [done|].
  assert (cellAt σ r j = Some " ") as Hcell
    by (unfold cellAt; by rewrite (grid_lookup σ r l cells Hl Hc)).
  pose proof (blank_cell_not_full σ r j Hs Hcell). lia.
Qed.

Lemma full_board_refuses_witness :
  let σ := set_filledCellCount (λ _, 9)
             (set_rowStore (λ _, {[ 1%nat := ["X"; "O"; "X"];
                                    2%nat := ["X"; "O"; "O"];
                                    3%nat := ["O"; "X"; "X"] ]}) initial) in
  setPlayerPosition 2 (ofZ 5) "X" σ = Ok false σ.
Proof.
  intros σ. apply (full_board_refuses 2 (ofZ 5) "X" σ);
    [lia | apply (bool_decide_unpack _); vm_compute; reflexivity
     | reflexivity].
Defined.

(** While the counter is below 9 on a board that satisfies the
    invariant, some cell number from 1 to 9 is accepted, so the
    prompt loop of [gameLoop] can always be left. *)
Theorem open_board_accepts (σ : State) :
  boardInv σ → filledCellCount σ < 9 →
  ∃ n : Z, 1 ≤ n ≤ 9 ∧
    ∀ (fuel : nat) (m : string), (2 ≤ fuel)%nat →
      setPlayerPosition fuel (ofZ n) m σ
      = Ok true (marked (Z.to_nat (specCoordinates n).1)
                        (Z.to_nat (specCoordinates n).2) m σ).
Proof.
  intros [Hs Hcount] Hlt.
  destruct (grid_explicit σ Hs)
    as (a0 & a1 & a2 & b0 & b1 & b2 & c0 & c1 & c2 & Hg).
  assert (∀ n v, 1 ≤ n ≤ 9 →
            cellAt σ (Z.to_nat (specCoordinates n).1)
                     (Z.to_nat (specCoordinates n).2) = Some v →
            v = " " →
            ∃ n : Z, 1 ≤ n ≤ 9 ∧
              ∀ (fuel : nat) (m : string), (2 ≤ fuel)%nat →
                setPlayerPosition fuel (ofZ n) m σ
                = Ok true (marked (Z.to_nat (specCoordinates n).1)
                                  (Z.to_nat (specCoordinates n).2) m σ))
    as Hfound.
  { intros n v Hn Hv ->. exists n. split; [done|]. intros fuel m Hf.
    by rewrite (setPlayerPosition_integral fuel n m " " σ Hf Hn Hv). }
  assert (∀ r c v, cellAt σ r c = Some v → v ≠ " " → nonEmpty v = true)
    as Hfilled.
  { intros r c v _ Hv. unfold nonEmpty. by rewrite bool_decide_false. }
  unfold cellAt in Hfound. rewrite Hg in Hfound.
  destruct (decide (a0 = " ")); [by apply (Hfound 1 a0)|].
  destruct (decide (a1 = " ")); [by apply (Hfound 2 a1)|].
  destruct (decide (a2 = " ")); [by apply (Hfound 3 a2)|].
  destruct (decide (b0 = " ")); [by apply (Hfound 4 b0)|].
  destruct (decide (b1 = " ")); [by apply (Hfound 5 b1)|].
  destruct (decide (b2 = " ")); [by apply (Hfound 6 b2)|].
  destruct (decide (c0 = " ")); [by apply (Hfound 7 c0)|].
  destruct (decide (c1 = " ")); [by apply (Hfound 8 c1)|].
  destruct (decide (c2 = " ")); [by apply (Hfound 9 c2)|].
  exfalso. unfold occupied in Hcount. rewrite Hg in Hcount.
  cbn [concat app List.filter] in Hcount. unfold nonEmpty in Hcount.
  rewrite !bool_decide_false in Hcount by done.
  cbn in Hcount. lia.
Qed.

Lemma open_board_accepts_witness :
  ∃ n : Z, 1 ≤ n ≤ 9 ∧
    ∀ (fuel : nat) (m : string), (2 ≤ fuel)%nat →
      setPlayerPosition fuel (ofZ n) m (marked 0 0 "X" initial)
      = Ok true (marked (Z.to_nat (specCoordinates n).1)
                        (Z.to_nat (specCoordinates n).2) m
                        (marked 0 0 "X" initial)).
Proof.
  apply (open_board_accepts (marked 0 0 "X" initial));
    [apply (bool_decide_unpack _); vm_compute; reflexivity | reflexivity].
Defined.

Lemma cleared_markCell (σ : State) (r j : nat) (l : loc)
    (cells : list string) (m : string) :
  shape σ → boardRows σ !! r = Some l →
  cleared (markCell l cells j m σ) = cleared σ.
Proof.
  intros Hs Hl.
  destruct (shape_explicit σ Hs)
    as (l0 & l1 & l2 & a0 & a1 & a2 & b0 & b1 & b2 & c0 & c1 & c2 &
        Hg & Hb & H01 & H02 & H12 & Hr0 & Hr1 & Hr2).
  unfold cleared.
  change (boardRows (set_filledCellCount _ (set_rowStore _ (markCell _ _ _ _ _))))
    with (boardRows σ).
  change (boardRows (markCell l cells j m σ)) with (boardRows σ).
  rewrite Hb in Hl |- *.
  unfold markCell, set_filledCellCount, set_rowStore, blankRow.
  cbn [rowStore gridStore board filledCellCount player1 player2 output
       foldl].
  f_equal. apply map_eq. intros k.
  assert (l = l0 ∨ l = l1 ∨ l = l2) as Hcases.
  { destruct r as [|[|[|r]]]; cbn in Hl; try done;
      injection Hl as <-; auto. }
  destruct (decide (k = l2)) as [->|?]; [by rewrite !lookup_insert_eq|].
  rewrite !(lookup_insert_ne _ l2 k) by done.
  destruct (decide (k = l1)) as [->|?]; [by rewrite !lookup_insert_eq|].
  rewrite !(lookup_insert_ne _ l1 k) by done.
  destruct (decide (k = l0)) as [->|?]; [by rewrite !lookup_insert_eq|].
  rewrite !(lookup_insert_ne _ l0 k) by done.
  apply lookup_insert_ne. by destruct Hcases as [-> | [-> | ->]].
Qed.

(** [resetBoard] forgets placements: resetting after a call of
    [setPlayerPosition], whatever its arguments and its result, gives
    the very state that resetting before the call gives. *)
Theorem resetBoard_forgets_placement (fuel : nat) (c : jsnum) (m : string)
    (σ : State) :
  (2 ≤ fuel)%nat → shape σ →
  (_ ← setPlayerPosition fuel c m; resetBoard) σ = resetBoard σ.
Proof.
  intros Hf Hs.
  destruct (setPlayerPosition_cases fuel c m σ Hf Hs)
    as [Hres|(r & j & l & cells & Hr & Hj & Hl & Hc & Hblank & Hres)];
    rewrite (bind_Ok _ _ _ _ _ Hres); [done|].
  rewrite (resetBoard_shape σ Hs).
  rewrite (resetBoard_shape _ (shape_markCell σ r j l cells m Hs Hc)).
  by rewrite (cleared_markCell σ r j l cells m Hs Hl).
Qed.

Lemma resetBoard_forgets_placement_witness :
  (_ ← setPlayerPosition 2 (ofZ 3) "X"; resetBoard) (marked 1 1 "O" initial)
  = resetBoard (marked 1 1 "O" initial).
Proof.
  apply (resetBoard_forgets_placement 2 (ofZ 3) "X" (marked 1 1 "O" initial));
    [lia | apply (bool_decide_unpack _); vm_compute; reflexivity].
Defined.

(** Each call of [getBoard] makes a new array: two calls in a row
    return two different references, neither of them [board], and both
    arrays hold the board's row references. *)
Theorem getBoard_twice_distinct (σ : State) :
  shape σ →
  ∃ a1 a2 σ',
    (a ← getBoard; b ← getBoard; mret (a, b)) σ = Ok (a1, a2) σ' ∧
    a1 ≠ a2 ∧ a1 ≠ board σ ∧ a2 ≠ board σ ∧
    gridStore σ' !! a1 = Some (boardRows σ) ∧
    gridStore σ' !! a2 = Some (boardRows σ) ∧
    grid σ' = grid σ.
Proof.
  intros Hs.
  assert (is_Some (gridStore σ !! board σ)) as Hsome by apply Hs.
  pose proof (copyRef_not_board σ Hsome) as Hne1.
  set (σ1 := set_gridStore <[copyRef σ := boardRows σ]> σ).
  assert (gridStore σ1 !! board σ1 = gridStore σ !! board σ) as Hb1
    by (subst σ1; cbn [set_gridStore gridStore board];
        by apply lookup_insert_ne).
  assert (is_Some (gridStore σ1 !! board σ1)) as Hsome1 by (by rewrite Hb1).
  assert (boardRows σ1 = boardRows σ) as Hrows1
    by (unfold boardRows; by rewrite Hb1).
  pose proof (copyRef_not_board σ1 Hsome1) as Hne2.
  destruct (copyRef_fresh σ1) as [_ Hfresh2].
  exists (copyRef σ), (copyRef σ1),
    (set_gridStore <[copyRef σ1 := boardRows σ1]> σ1).
  split.
  { rewrite (bind_Ok _ _ σ σ1 (copyRef σ)) by (by apply getBoard_ok).
    by rewrite (bind_Ok _ _ σ1 _ (copyRef σ1)) by (by apply getBoard_ok). }
  assert (copyRef σ ≠ copyRef σ1) as Hne12.
  { intros Heq. rewrite <- Heq in Hfresh2. subst σ1.
    cbn [set_gridStore gridStore] in Hfresh2.
    by rewrite lookup_insert_eq in Hfresh2. }
  split; [done|]. split; [done|]. split; [done|].
  split; [|split].
  - cbn [set_gridStore gridStore]. rewrite lookup_insert_ne by done.
    subst σ1. cbn [set_gridStore gridStore]. by rewrite lookup_insert_eq.
  - cbn [set_gridStore gridStore]. by rewrite lookup_insert_eq, Hrows1.
  - rewrite grid_other_array by done. subst σ1.
    by rewrite grid_other_array.
Qed.

Lemma getBoard_twice_distinct_witness :
  ∃ a1 a2 σ',
    (a ← getBoard; b ← getBoard; mret (a, b)) initial = Ok (a1, a2) σ' ∧
    a1 ≠ a2 ∧ a1 ≠ board initial ∧ a2 ≠ board initial ∧
    gridStore σ' !! a1 = Some (boardRows initial) ∧
    gridStore σ' !! a2 = Some (boardRows initial) ∧
    grid σ' = grid initial.
Proof.
  apply (getBoard_twice_distinct initial).
  apply (bool_decide_unpack _). vm_compute. reflexivity.
Defined.

End board_more.

(** * Rendering *)

Section rendering.

Import gameBoard render.

Lemma render_row (τ : State) (a : loc) (rowRefs : list loc) (row : nat)
    (l : loc) (x y z : string) :
  gridStore τ !! a = Some rowRefs → rowRefs !! row = Some l →
  rowStore τ !! l = Some [x; y; z] →
  (r ← gridElem a row;
   '(_, cells) ← rowOf r;
   let colValue1 := cells !! 0%nat in
   let colValue2 := cells !! 1%nat in
   let colValue3 := cells !! 2%nat in
   _ ← modify (emit (Log (" " +:+ show colValue1 +:+ " | " +:+
                          show colValue2 +:+ " | " +:+
                          show colValue3 +:+ " ")));
   if bool_decide (row = 0%nat) || bool_decide (row = 1%nat)
   then modify (emit (Log "---|---|---"))
   else mret tt) τ
  = Ok tt (if bool_decide (row = 0%nat) || bool_decide (row = 1%nat)
           then emit (Log "---|---|---") (emit (Log (rowText x y z)) τ)
           else emit (Log (rowText x y z)) τ).
Proof.
  intros Hg Hrow Hc.
  rewrite (bind_Ok _ _ τ τ (Some l)) by (unfold gridElem; by rewrite Hg, Hrow).
  rewrite (bind_Ok _ _ τ τ (l, [x; y; z])) by (unfold rowOf; by rewrite Hc).
  cbv zeta.
  rewrite (bind_Ok _ _ τ (emit (Log (rowText x y z)) τ) tt) by done.
  by destruct (_ || _).
Qed.

(** The state a rendering leaves: the copy made by [getBoard] and six
    more lines in the log. *)
Lemma renderGameBoard_run (σ : State) :
  shape σ →
  ∃ a0 a1 a2 b0 b1 b2 c0 c1 c2,
    grid σ = [[a0; a1; a2]; [b0; b1; b2]; [c0; c1; c2]] ∧
    renderGameBoard σ
    = Ok tt
        (emit (Log newline)
           (emit (Log (rowText c0 c1 c2))
              (emit (Log "---|---|---")
                 (emit (Log (rowText b0 b1 b2))
                    (emit (Log "---|---|---")
                       (emit (Log (rowText a0 a1 a2))
                          (set_gridStore <[copyRef σ := boardRows σ]> σ))))))).
Proof.
  intros Hs.
  destruct (shape_explicit σ Hs)
    as (l0 & l1 & l2 & a0 & a1 & a2 & b0 & b1 & b2 & c0 & c1 & c2 &
        Hg & Hb & H01 & H02 & H12 & Hr0 & Hr1 & Hr2).
  exists a0, a1, a2, b0, b1, b2, c0, c1, c2. split.
  { unfold grid. rewrite Hb. cbn. by rewrite Hr0, Hr1, Hr2. }
  assert (is_Some (gridStore σ !! board σ)) as Hsome by apply Hs.
  set (a := copyRef σ) in *.
  set (σ1 := set_gridStore <[a := boardRows σ]> σ).
  assert (gridStore σ1 !! a = Some [l0; l1; l2]) as Ha
    by (subst σ1; cbn [set_gridStore gridStore];
        by rewrite lookup_insert_eq, Hb).
  set (σ2 := emit (Log "---|---|---") (emit (Log (rowText a0 a1 a2)) σ1)).
  set (σ3 := emit (Log "---|---|---") (emit (Log (rowText b0 b1 b2)) σ2)).
  set (σ4 := emit (Log (rowText c0 c1 c2)) σ3).
  unfold renderGameBoard.
  rewrite (bind_Ok _ _ σ σ1 a) by (by apply getBoard_ok).
  rewrite (bind_Ok _ _ σ1 σ1 rows) by done.
  rewrite (bind_Ok _ _ σ1 σ4 tt); [done|].
  change (Z.to_nat rows) with 3%nat. cbn [seq forEach].
  rewrite (bind_Ok _ _ σ1 σ2 tt)
    by (by apply (render_row σ1 a [l0; l1; l2] 0 l0 a0 a1 a2)).
  rewrite (bind_Ok _ _ σ2 σ3 tt)
    by (by apply (render_row σ2 a [l0; l1; l2] 1 l1 b0 b1 b2)).
  rewrite (bind_Ok _ _ σ3 σ4 tt); [done|].
  by apply (render_row σ3 a [l0; l1; l2] 2 l2 c0 c1 c2).
Qed.

(** On a board of the module's shape [renderGameBoard] ends normally
    and logs six lines after what was logged before: the three rows,
    each cell between bars, a separator after the first and the second
    row but not after the third, and a line break at the end.  It
    changes neither the grid, the row arrays, the counter nor the
    players, and it keeps the board invariant. *)
Theorem renderGameBoard_output (σ : State) :
  shape σ →
  ∃ σ', renderGameBoard σ = Ok tt σ' ∧
        output σ' = output σ ++ rendering (grid σ) ∧
        length (rendering (grid σ)) = 6%nat ∧
        grid σ' = grid σ ∧ rowStore σ' = rowStore σ ∧
        filledCellCount σ' = filledCellCount σ ∧
        player1 σ' = player1 σ ∧ player2 σ' = player2 σ ∧
        (boardInv σ → boardInv σ').
Proof.
  intros Hs.
  destruct (renderGameBoard_run σ Hs)
    as (a0 & a1 & a2 & b0 & b1 & b2 & c0 & c1 & c2 & Hgrid & Hrun).
  assert (copyRef σ ≠ board σ) as Hne by (apply copyRef_not_board, Hs).
  eexists. split; [exact Hrun|].
  split.
  { rewrite Hgrid. cbn [rendering emit output set_gridStore].
    by rewrite <- !app_assoc. }
  split; [by rewrite Hgrid|].
  split; [by apply (grid_other_array σ (copyRef σ))|].
  split; [done|]. split; [done|]. split; [done|]. split; [done|].
  intros Hinv.
  by apply (boardInv_other_array σ (copyRef σ) (boardRows σ) Hne) in Hinv.
Qed.

Lemma renderGameBoard_output_witness :
  ∃ σ', renderGameBoard (marked 1 1 "X" initial) = Ok tt σ' ∧
        output σ' = output (marked 1 1 "X" initial)
                    ++ rendering (grid (marked 1 1 "X" initial)) ∧
        length (rendering (grid (marked 1 1 "X" initial))) = 6%nat ∧
        grid σ' = grid (marked 1 1 "X" initial) ∧
        rowStore σ' = rowStore (marked 1 1 "X" initial) ∧
        filledCellCount σ' = filledCellCount (marked 1 1 "X" initial) ∧
        player1 σ' = player1 (marked 1 1 "X" initial) ∧
        player2 σ' = player2 (marked 1 1 "X" initial) ∧
        (boardInv (marked 1 1 "X" initial) → boardInv σ').
Proof.
  apply (renderGameBoard_output (marked 1 1 "X" initial)).
  apply (bool_decide_unpack _). vm_compute. reflexivity.
Defined.

End rendering.

(** * Further properties of [setupPlayer] *)

Section setup_more.

Import gameBoard Game.

Lemma sameBoard_refl (σ : State) : sameBoard σ σ.
Proof. done. Qed.

Lemma sameBoard_trans (σ1 σ2 σ3 : State) :
  sameBoard σ1 σ2 → sameBoard σ2 σ3 → sameBoard σ1 σ3.
Proof.
  intros (? & ? & ? & ?) (? & ? & ? & ?). repeat split; congruence.
Qed.

Lemma boardInv_sameBoard (σ σ' : State) :
  sameBoard σ σ' → boardInv σ → boardInv σ'.
Proof.
  intros (Hr & Hg & Hb & Hc).
  unfold boardInv, shape, occupied, grid, boardRows.
  by rewrite Hr, Hg, Hb, Hc.
Qed.

Lemma prefix_emit (e : event) (σ : State) (out : list event) :
  out `prefix_of` output σ → out `prefix_of` output (emit e σ).
Proof. intros H. cbn [emit output]. by apply prefix_app_r. Qed.

(** What a call does, whatever the answers: it neither throws nor runs
    out of fuel, it never touches the store, the board or the counter,
    and it only adds to the output.  When it returns, both players are
    set, with marks "X" and "O"; when it is left waiting for an answer,
    the players are the ones from before the call. *)
Lemma setupPlayer_outcome (answers : list jsname) :
  (∀ σ, match setupPlayer answers σ with
        | Ok rest σ' =>
            sameBoard σ σ' ∧ playersSet σ' ∧ output σ `prefix_of` output σ'
            ∧ rest `suffix_of` answers
        | Awaiting σ' =>
            sameBoard σ σ' ∧ player1 σ' = player1 σ ∧ player2 σ' = player2 σ
            ∧ output σ `prefix_of` output σ'
        | _ => False
        end) ∧
  (∀ x σ, match setupPlayer (x :: answers) σ with
          | Ok rest σ' =>
              sameBoard σ σ' ∧ playersSet σ' ∧ output σ `prefix_of` output σ'
              ∧ rest `suffix_of` x :: answers
          | Awaiting σ' =>
              sameBoard σ σ' ∧ player1 σ' = player1 σ ∧ player2 σ' = player2 σ
              ∧ output σ `prefix_of` output σ'
          | _ => False
          end).
Proof.
  induction answers as [|y ys [IH1 IH2]].
  - split.
    + intros σ. cbn [setupPlayer].
      rewrite (bind_Ok _ _ σ (emit (Prompt "Set player 1 name: ") σ) tt)
        by done.
      repeat split. by apply prefix_emit.
    + intros x σ. cbn [setupPlayer].
      rewrite (bind_Ok _ _ σ (emit (Prompt "Set player 1 name: ") σ) tt)
        by done.
      rewrite (bind_Ok _ _ _ (emit (Prompt "Set player 2 name: ")
                 (emit (Prompt "Set player 1 name: ") σ)) tt) by done.
      repeat split. by do 2 apply prefix_emit.
  - split; [apply IH2|]. intros x σ. cbn [setupPlayer].
    set (σ0 := emit (Prompt "Set player 2 name: ")
                 (emit (Prompt "Set player 1 name: ") σ)).
    assert (output σ `prefix_of` output σ0) as Hpre0
      by (subst σ0; by do 2 apply prefix_emit).
    rewrite (bind_Ok _ _ σ (emit (Prompt "Set player 1 name: ") σ) tt) by done.
    rewrite (bind_Ok _ _ _ σ0 tt) by done.
    case_bool_decide as Hxy.
    + (* equal names: alert, then the recursive call *)
      set (σ1 := emit (Alert "Both players' names cannot be the same.") σ0).
      assert (output σ `prefix_of` output σ1) as Hpre1
        by (subst σ1; by apply prefix_emit).
      specialize (IH1 σ1).
      unfold mbind at 1. unfold M_bind at 1. unfold bind at 1.
      rewrite (bind_Ok _ _ σ0 σ1 tt) by done.
      destruct (setupPlayer ys σ1) as [rest σ2| | |σ2]; try done.
      * destruct IH1 as (Hsame & _ & Hpre & Hsuf).
        rewrite (bind_Ok _ _ σ2 (set_players
                   (Some (createPlayer x "X")) (Some (createPlayer y "O")) σ2) tt)
          by done.
        cbn. split; [by destruct Hsame as (? & ? & ? & ?)|].
        split; [by exists x, y|]. split; [by etrans|].
        by do 2 apply suffix_cons_r.
      * destruct IH1 as (Hsame & Hp1 & Hp2 & Hpre).
        split; [by destruct Hsame as (? & ? & ? & ?)|].
        split; [done|]. split; [done|]. by etrans.
    + unfold mbind at 1. unfold M_bind at 1. unfold bind at 1.
      cbn. repeat split; [by exists x, y|done|].
      by do 2 apply suffix_cons_r.
Qed.

(** A returning call of [setupPlayer] (a) has been given at least two
    answers, (b) leaves the first two of them as the names of player 1
    and player 2, with marks "X" and "O", however many times it was
    re-entered, and (c) has left store, board and counter alone. *)
Theorem setupPlayer_returns_first_pair (answers rest' : list jsname)
    (σ σ' : State) :
  setupPlayer answers σ = Ok rest' σ' →
  ∃ name1 name2 rest,
    answers = name1 :: name2 :: rest ∧
    player1 σ' = Some (createPlayer name1 "X") ∧
    player2 σ' = Some (createPlayer name2 "O") ∧
    (name1 ≠ name2 →
     rest' = rest ∧
     output σ' = output σ ++ [Prompt "Set player 1 name: ";
                              Prompt "Set player 2 name: "]) ∧
    sameBoard σ σ'.
Proof.
  intros Hres.
  destruct answers as [|name1 [|name2 rest]]; try discriminate.
  exists name1, name2, rest. split; [done|].
  destruct (setupPlayer_first_answers _ _ _ _ _ _ Hres) as [Hp1 Hp2].
  split; [done|]. split; [done|]. split.
  - intros Hne. cbn [setupPlayer] in Hres.
    rewrite bool_decide_false in Hres by done. cbn in Hres.
    injection Hres as <- <-. split; [done|]. cbn.
    by rewrite <- app_assoc.
  - destruct (setupPlayer_outcome rest) as [_ H].
    specialize (H name1 σ). destruct (setupPlayer_outcome (name2 :: rest))
      as [_ H2]. specialize (H2 name1 σ). rewrite Hres in H2. apply H2.
Qed.

Lemma setupPlayer_returns_first_pair_witness :
  let σ' := set_players (Some (createPlayer (Some "ann") "X"))
                        (Some (createPlayer (Some "ann") "O"))
              (emit (Prompt "Set player 2 name: ")
                 (emit (Prompt "Set player 1 name: ")
                    (emit (Alert "Both players' names cannot be the same.")
                       (emit (Prompt "Set player 2 name: ")
                          (emit (Prompt "Set player 1 name: ") initial))))) in
  ∃ name1 name2 rest,
    [Some "ann"; Some "ann"; None; Some "cy"; Some "dee"]
      = name1 :: name2 :: rest ∧
    player1 σ' = Some (createPlayer name1 "X") ∧
    player2 σ' = Some (createPlayer name2 "O") ∧
    (name1 ≠ name2 →
     [Some "dee"] = rest ∧
     output σ' = output initial ++ [Prompt "Set player 1 name: ";
                                    Prompt "Set player 2 name: "]) ∧
    sameBoard initial σ'.
Proof.
  intros σ'.
  apply (setupPlayer_returns_first_pair
           [Some "ann"; Some "ann"; None; Some "cy"; Some "dee"]
           [Some "dee"] initial σ').
  reflexivity.
Defined.

Lemma setupPlayer_returns_iff (answers : list jsname) :
  (∀ σ, (∃ rest σ', setupPlayer answers σ = Ok rest σ')
        ↔ allPairsEqual answers = false) ∧
  (∀ x σ, (∃ rest σ', setupPlayer (x :: answers) σ = Ok rest σ')
          ↔ allPairsEqual (x :: answers) = false).
Proof.
  induction answers as [|y ys [IH1 IH2]].
  - split; [intros σ|intros x σ]; (split; [intros (? & ? & ?)|]; done).
  - split; [apply IH2|]. intros x σ. cbn [setupPlayer allPairsEqual].
    set (σ0 := emit (Prompt "Set player 2 name: ")
                 (emit (Prompt "Set player 1 name: ") σ)).
    rewrite (bind_Ok _ _ σ (emit (Prompt "Set player 1 name: ") σ) tt) by done.
    rewrite (bind_Ok _ _ _ σ0 tt) by done.
    case_bool_decide as Hxy; cbn [andb].
    + set (σ1 := emit (Alert "Both players' names cannot be the same.") σ0).
      rewrite <- (IH1 σ1).
      unfold mbind at 1. unfold M_bind at 1. unfold bind at 1.
      rewrite (bind_Ok _ _ σ0 σ1 tt) by done.
      destruct (setupPlayer ys σ1) as [rest σ2| | |σ2].
      * split; intros _; eauto.
      * split; intros (? & ? & ?); done.
      * split; intros (? & ? & ?); done.
      * split; intros (? & ? & ?); done.
    + split; [done|]. intros _. eauto.
Qed.

(** [setupPlayer] never throws and never runs out of fuel, it leaves
    store, board and counter alone and only adds to the output.  It
    returns exactly when some pair of answers (the 1st and 2nd, the 3rd
    and 4th, ...) names two different players; as long as every pair
    repeats one name it is left waiting for input, with the players it
    was called with. *)
Theorem setupPlayer_returns_or_waits (answers : list jsname) (σ : State) :
  settled (λ σ', sameBoard σ σ' ∧ output σ `prefix_of` output σ')
          (setupPlayer answers σ) ∧
  ((∃ rest σ', setupPlayer answers σ = Ok rest σ')
   ↔ allPairsEqual answers = false) ∧
  (∀ σ', setupPlayer answers σ = Awaiting σ' →
         allPairsEqual answers = true ∧
         player1 σ' = player1 σ ∧ player2 σ' = player2 σ).
Proof.
  destruct (setupPlayer_outcome answers) as [Hout _].
  destruct (setupPlayer_returns_iff answers) as [Hiff _].
  specialize (Hout σ). specialize (Hiff σ).
  split; [|split; [done|]].
  - destruct (setupPlayer answers σ) as [rest σ'| | |σ']; try done; cbn.
    + by destruct Hout as (? & _ & ? & _).
    + by destruct Hout as (? & _ & _ & ?).
  - intros σ' Hres. rewrite Hres in Hout.
    split; [|by destruct Hout as (_ & ? & ? & _)].
    destruct (allPairsEqual answers); [done|].
    destruct (proj2 Hiff eq_refl) as (? & ? & ?). congruence.
Qed.

End setup_more.

(** * Playing a game *)

Section play.

Import gameBoard render Game.

Lemma playersSet_marks (σ : State) (cur : Player) :
  playersSet σ → player1 σ = Some cur ∨ player2 σ = Some cur →
  getPlayerMark cur ≠ " ".
Proof.
  intros (n1 & n2 & H1 & H2) [H|H]; rewrite H in *; by simplify_eq.
Qed.

Lemma playersSet_same (σ σ' : State) :
  player1 σ' = player1 σ → player2 σ' = player2 σ →
  playersSet σ → playersSet σ'.
Proof. unfold playersSet. by intros -> ->. Qed.

Lemma step_place (fuel : nat) (c : jsnum) (cur : Player) (σ : State) :
  (2 ≤ fuel)%nat → readyToPlay σ →
  player1 σ = Some cur ∨ player2 σ = Some cur →
  ∃ b σ1,
    setPlayerPosition fuel c (getPlayerMark cur) σ = Ok b σ1 ∧
    readyToPlay σ1 ∧ player1 σ1 = player1 σ ∧ player2 σ1 = player2 σ ∧
    filledCellCount σ1 = filledCellCount σ + (if b then 1 else 0).
Proof.
  intros Hf [Hinv Hpl] Hcur.
  pose proof (playersSet_marks σ cur Hpl Hcur) as Hm.
  destruct (boardInv_setPlayerPosition fuel c _ σ Hf Hm Hinv)
    as (b & σ1 & E & Hinv1 & Hc).
  destruct (changes_setPlayerPosition _ _ _ _ _ _ E) as (Hp1 & Hp2 & _).
  exists b, σ1. split; [done|].
  split; [split; [done|by apply (playersSet_same σ)]|done].
Qed.

Lemma step_check (cur : Player) (σ : State) :
  readyToPlay σ →
  ∃ w σ2,
    checkWinner cur σ = Ok w σ2 ∧ readyToPlay σ2 ∧
    grid σ2 = grid σ ∧ output σ2 = output σ ∧
    filledCellCount σ2 = filledCellCount σ ∧
    player1 σ2 = player1 σ ∧ player2 σ2 = player2 σ ∧
    (w = true →
     ∃ pos, pos ∈ winPositions ∧ completes σ (getPlayerMark cur) pos).
Proof.
  intros [Hinv Hpl].
  assert (shape σ) as Hs by apply Hinv.
  assert (copyRef σ ≠ board σ) as Hne by (apply copyRef_not_board, Hs).
  eexists _, _. split; [by apply checkWinner_spec|].
  split; [split; [by apply boardInv_other_array|done]|].
  split; [by apply grid_other_array|].
  repeat (split; [done|]).
  intros Hw. by apply existsb_winPositions.
Qed.

Lemma step_render (σ : State) :
  readyToPlay σ →
  ∃ σ3,
    renderGameBoard σ = Ok tt σ3 ∧ readyToPlay σ3 ∧
    grid σ3 = grid σ ∧ filledCellCount σ3 = filledCellCount σ ∧
    player1 σ3 = player1 σ ∧ player2 σ3 = player2 σ.
Proof.
  intros [Hinv Hpl].
  destruct (renderGameBoard_run σ (proj1 Hinv))
    as (a0 & a1 & a2 & b0 & b1 & b2 & c0 & c1 & c2 & _ & Hrun).
  assert (copyRef σ ≠ board σ) as Hne
    by (apply copyRef_not_board, Hinv).
  eexists. split; [exact Hrun|]. split.
  - split; [|exact Hpl].
    exact (boardInv_other_array σ (copyRef σ) (boardRows σ) Hne Hinv).
  - split; [|done]. exact (grid_other_array σ (copyRef σ) _ Hne).
Qed.

Lemma completes_same_grid (σ σ' : State) (m : string)
    (pos : list (nat * nat)) :
  grid σ' = grid σ → completes σ m pos → completes σ' m pos.
Proof.
  intros Hg Hc r c Hrc. unfold cellAt. rewrite Hg. by apply Hc.
Qed.

Lemma selectPlayer_is_player (cnt : Z) (σ : State) :
  playersSet σ →
  ∃ p, selectPlayer cnt σ = Some p ∧
       (player1 σ = Some p ∨ player2 σ = Some p).
Proof.
  intros (n1 & n2 & H1 & H2). unfold selectPlayer.
  destruct (Z.rem cnt 2 =? 0); eauto.
Qed.

Lemma loopPost_later (p1 p2 p1' p2' : option Player) (c : jsnum)
    (rest : list jsnum) (hr : run (list jsnum)) :
  p1' = p1 → p2' = p2 →
  loopPost p1' p2' rest hr → loopPost p1 p2 (c :: rest) hr.
Proof.
  intros -> -> [Hall Hres]. split; [done|].
  destruct hr.2 as [r σ'| | |σ']; try done.
  destruct Hres as (? & ? & ? & ? & ?).
  split; [done|]. split; [done|]. split; [done|]. split; [done|].
  by apply suffix_cons_r.
Qed.

Lemma loopPost_cons (p1 p2 : option Player) (answers : list jsnum)
    (t : turn) (h : list turn) (r : result (list jsnum)) :
  t.1 < 9 → loopPost p1 p2 answers (h, r) →
  loopPost p1 p2 answers (t :: h, r).
Proof.
  intros Ht [Hall Hres]. split; [|done]. by apply Forall_cons.
Qed.

Lemma doWhile_post (fuel : nat) (answers : list jsnum) (cur : Player)
    (σ : State) :
  (2 ≤ fuel)%nat → readyToPlay σ →
  player1 σ = Some cur ∨ player2 σ = Some cur →
  loopPost (player1 σ) (player2 σ) answers
           (doWhile fuel answers (Some cur) σ).
Proof.
  intros Hf. revert cur σ.
  induction answers as [|c rest IH]; intros cur σ Hready Hcur;
    cbn [doWhile].
  { split; [constructor|]. by cbn. }
  set (σ0 := emit _ σ).
  assert (readyToPlay σ0) as Hready0 by exact Hready.
  assert (player1 σ0 = player1 σ ∧ player2 σ0 = player2 σ ∧
          filledCellCount σ0 = filledCellCount σ) as (He1 & He2 & He3)
    by done.
  assert (player1 σ0 = Some cur ∨ player2 σ0 = Some cur) as Hcur0
    by exact Hcur.
  clearbody σ0.
  destruct (step_place fuel c cur σ0 Hf Hready0 Hcur0)
    as (b & σ1 & E & Hr1 & Hp1 & Hp2 & Hc1).
  rewrite E. destruct b.
  2:{ assert (player1 σ1 = Some cur ∨ player2 σ1 = Some cur) as Hcur1
        by (rewrite Hp1, Hp2; exact Hcur0).
      apply (loopPost_later _ _ (player1 σ1) (player2 σ1));
        [congruence | congruence | by apply IH]. }
  destruct (step_check cur σ1 Hr1)
    as (w & σ2 & E2 & Hr2 & Hg2 & Ho2 & Hc2 & Hq1 & Hq2 & Hw).
  rewrite E2.
  destruct (step_render σ2 Hr2) as (σ3 & E3 & Hr3 & Hg3 & Hc3 & Hs1 & Hs2).
  destruct w.
  - (* the player who just moved has won *)
    destruct (Hw eq_refl) as (pos & Hpos & Hcomp).
    unfold stopped. rewrite (bind_Ok _ _ σ2 σ3 tt E3).
    set (σ4 := emit (Alert (nameText (getPlayerName cur) +:+ " won!")) σ3).
    rewrite (bind_Ok _ _ σ3 σ4 tt) by done.
    split; [constructor|]. cbn [snd mret M_ret ret].
    split; [exact Hr3|]. split; [subst σ4; cbn; congruence|].
    split; [subst σ4; cbn; congruence|]. split; [|by apply suffix_cons_r].
    left. exists cur, pos. split.
    { subst σ4. cbn [emit player1 player2].
      destruct Hcur0 as [H|H]; [left|right]; congruence. }
    split; [done|]. split.
    + apply (completes_same_grid σ1); [|done].
      subst σ4. change (grid (emit _ σ3)) with (grid σ3). congruence.
    + subst σ4. cbn [emit output]. apply last_snoc.
  - destruct (filledCellCount σ1 =? totalCellCount) eqn:Etot.
    + (* the board is full *)
      apply Z.eqb_eq in Etot. change totalCellCount with 9 in Etot.
      unfold stopped. rewrite (bind_Ok _ _ σ2 σ3 tt E3).
      set (σ4 := emit (Alert "tie!") σ3).
      rewrite (bind_Ok _ _ σ3 σ4 tt) by done.
      split; [constructor|]. cbn [snd mret M_ret ret].
      split; [exact Hr3|]. split; [subst σ4; cbn; congruence|].
      split; [subst σ4; cbn; congruence|]. split; [|by apply suffix_cons_r].
      right. split.
      * subst σ4. cbn [emit filledCellCount]. congruence.
      * subst σ4. cbn [emit output]. apply last_snoc.
    + (* next iteration *)
      unfold whileHead. rewrite Etot. cbn [negb]. rewrite E3.
      destruct (selectPlayer_is_player (filledCellCount σ1) σ2 (proj2 Hr2))
        as (p' & -> & Hp').
      assert (player1 σ3 = Some p' ∨ player2 σ3 = Some p') as Hcur3
        by (rewrite Hs1, Hs2; exact Hp').
      pose proof (IH p' σ3 Hr3 Hcur3) as Hpost.
      destruct (doWhile fuel rest (Some p') σ3) as [h r].
      apply loopPost_cons.
      * cbn [fst].
        apply Z.eqb_neq in Etot. change totalCellCount with 9 in Etot.
        destruct Hr1 as [[Hs1' Hocc] _].
        pose proof (occupied_bounds σ1 Hs1'). lia.
      * apply (loopPost_later _ _ (player1 σ3) (player2 σ3));
          [congruence | congruence | done].
Qed.

Lemma gameLoop_post (fuel : nat) (answers : list jsnum) (σ : State) :
  (2 ≤ fuel)%nat → readyToPlay σ → filledCellCount σ ≠ 9 →
  loopPost (player1 σ) (player2 σ) answers (gameLoop fuel answers σ).
Proof.
  intros Hf Hready Hne. unfold gameLoop, whileHead.
  set (σ0 := emit _ σ).
  assert (readyToPlay σ0) as Hready0 by exact Hready.
  apply Z.eqb_neq in Hne. change 9 with totalCellCount in Hne.
  rewrite Hne. cbn [negb].
  destruct (step_render σ0 Hready0) as (σ1 & E & Hr1 & Hg & Hc & Hp1 & Hp2).
  rewrite E.
  destruct (selectPlayer_is_player (filledCellCount σ) σ0 (proj2 Hready0))
    as (p & -> & Hp).
  assert (player1 σ1 = Some p ∨ player2 σ1 = Some p) as Hcur
    by (rewrite Hp1, Hp2; exact Hp).
  pose proof (doWhile_post fuel answers p σ1 Hf Hr1 Hcur) as Hpost.
  rewrite Hp1, Hp2 in Hpost.
  destruct (doWhile fuel answers (Some p) σ1) as [h r].
  apply loopPost_cons; [|exact Hpost]. cbn [fst].
  apply Z.eqb_neq in Hne. change totalCellCount with 9 in Hne.
  destruct Hready as [[Hs Hocc] _]. pose proof (occupied_bounds σ Hs). lia.
Qed.

Lemma gameLoop_full (fuel : nat) (answers : list jsnum) (σ : State) :
  filledCellCount σ = 9 →
  gameLoop fuel answers σ
  = ([], Ok answers
           (emit (Log ("* * * GAME STARTED * * *" +:+ newline +:+ newline)) σ)).
Proof.
  intros Hfull. unfold gameLoop, whileHead. rewrite Hfull. done.
Qed.

Lemma gameLoop_counts (fuel : nat) (answers : list jsnum) (σ : State)
    (k : nat) (cnt : Z) (p : option Player) :
  (gameLoop fuel answers σ).1 !! k = Some (cnt, p) →
  cnt = filledCellCount σ + Z.of_nat k.
Proof.
  unfold gameLoop, whileHead. set (σ0 := emit _ σ).
  assert (filledCellCount σ0 = filledCellCount σ) as He by done.
  clearbody σ0. destruct (negb _); [|done].
  destruct (renderGameBoard σ0) as [u σ1| | |] eqn:E1.
  - destruct (keeps_renderGameBoard _ _ _ E1) as (_ & _ & Hc1).
    destruct (doWhile fuel answers _ σ1) as [h r] eqn:E2.
    destruct k as [|k]; cbn [fst lookup list_lookup].
    + intros H. injection H as <- _. lia.
    + intros H.
      pose proof (doWhile_history fuel answers
                    (selectPlayer (filledCellCount σ) σ0) σ1 k cnt p) as Hh.
      rewrite E2 in Hh. destruct (Hh H) as [-> _]. lia.
  - destruct k as [|[|k]]; try done. cbn. intros H. injection H as <- _. lia.
  - destruct k as [|[|k]]; try done. cbn. intros H. injection H as <- _. lia.
  - destruct k as [|[|k]]; try done. cbn. intros H. injection H as <- _. lia.
Qed.

Lemma gameLoop_settled (fuel : nat) (answers : list jsnum) (σ : State) :
  (2 ≤ fuel)%nat → readyToPlay σ →
  settled (λ σ', readyToPlay σ' ∧ player1 σ' = player1 σ ∧
                 player2 σ' = player2 σ)
          (gameLoop fuel answers σ).2.
Proof.
  intros Hf Hready.
  destruct (decide (filledCellCount σ = 9)) as [Hfull|Hne].
  - by rewrite gameLoop_full.
  - destruct (gameLoop_post fuel answers σ Hf Hready Hne) as [_ Hres].
    destruct (gameLoop fuel answers σ).2 as [r σ'| | |σ']; try done.
    by destruct Hres as (? & ? & ? & _).
Qed.

(** With both players set and the board invariant in force, [gameLoop]
    neither throws nor runs out of fuel: it returns or is left waiting
    for an answer, in a state where the invariant holds and the players
    are the same.  Its loop goes through at most as many iterations as
    there were unfilled cells, and through none on a full board, where
    it returns at once without a prompt. *)
Theorem gameLoop_stays_sound (fuel : nat) (answers : list jsnum)
    (σ : State) :
  (2 ≤ fuel)%nat → readyToPlay σ →
  settled (λ σ', readyToPlay σ' ∧ player1 σ' = player1 σ ∧
                 player2 σ' = player2 σ)
          (gameLoop fuel answers σ).2 ∧
  Z.of_nat (length (gameLoop fuel answers σ).1) ≤ 9 - filledCellCount σ ∧
  (filledCellCount σ = 9 →
   gameLoop fuel answers σ
   = ([], Ok answers
            (emit (Log ("* * * GAME STARTED * * *" +:+ newline +:+ newline))
                  σ))).
Proof.
  intros Hf Hready. split; [by apply gameLoop_settled|].
  split; [|by apply gameLoop_full].
  assert (0 ≤ filledCellCount σ ≤ 9) as Hrange.
  { destruct Hready as [[Hs ->] _]. by apply occupied_bounds. }
  destruct (decide (filledCellCount σ = 9)) as [Hfull|Hne].
  { rewrite gameLoop_full by done. cbn. lia. }
  destruct (gameLoop_post fuel answers σ Hf Hready Hne) as [Hall _].
  destruct (gameLoop fuel answers σ).1 as [|t h] eqn:Eh; [cbn; lia|].
  destruct (lookup_lt_is_Some_2 (t :: h) (length h)) as [[cnt p] Hlast];
    [cbn; lia|].
  pose proof (gameLoop_counts fuel answers σ (length h) cnt p) as Hcnt.
  rewrite Eh in Hcnt. specialize (Hcnt Hlast).
  rewrite Forall_lookup in Hall. specialize (Hall _ _ Hlast).
  cbn [fst length] in *. lia.
Qed.

Lemma gameLoop_stays_sound_witness :
  let σ := set_players (Some (createPlayer (Some "ann") "X"))
                       (Some (createPlayer (Some "bob") "O"))
                       (marked 1 1 "X" initial) in
  settled (λ σ', readyToPlay σ' ∧ player1 σ' = player1 σ ∧
                 player2 σ' = player2 σ)
          (gameLoop 2 [NaN; ofZ 5; ofZ 1] σ).2 ∧
  Z.of_nat (length (gameLoop 2 [NaN; ofZ 5; ofZ 1] σ).1)
    ≤ 9 - filledCellCount σ ∧
  (filledCellCount σ = 9 →
   gameLoop 2 [NaN; ofZ 5; ofZ 1] σ
   = ([], Ok [NaN; ofZ 5; ofZ 1]
            (emit (Log ("* * * GAME STARTED * * *" +:+ newline +:+ newline))
                  σ))).
Proof.
  intros σ. apply (gameLoop_stays_sound 2 [NaN; ofZ 5; ofZ 1] σ); [lia|].
  split.
  - apply (bool_decide_unpack _). vm_compute. reflexivity.
  - exists (Some "ann"), (Some "bob"). split; vm_compute; reflexivity.
Defined.

(** When [gameLoop], begun on a board that is not full, returns, the
    game is over in one of the two ways the code announces: the last
    thing shown is "<name> won!" for a player whose mark completes one
    of the eight patterns on the final board, or it is "tie!" and the
    counter is 9.  The answers it hands back are the unread tail of the
    answers it was given. *)
Theorem gameLoop_ends_on_win_or_tie (fuel : nat) (answers rest : list jsnum)
    (σ σ' : State) :
  (2 ≤ fuel)%nat → readyToPlay σ → filledCellCount σ ≠ 9 →
  (gameLoop fuel answers σ).2 = Ok rest σ' →
  gameEnded σ' ∧ rest `suffix_of` answers ∧ boardInv σ'.
Proof.
  intros Hf Hready Hne Hres.
  destruct (gameLoop_post fuel answers σ Hf Hready Hne) as [_ Hpost].
  rewrite Hres in Hpost.
  destruct Hpost as ([Hinv _] & _ & _ & Hend & Hsuf). done.
Qed.

Lemma gameLoop_ends_on_win_or_tie_witness :
  let σ := set_players (Some (createPlayer (Some "ann") "X"))
                       (Some (createPlayer (Some "bob") "O")) initial in
  let r := (gameLoop 2 (ofZ <$> [1; 4; 2; 5; 3; 9]) σ).2 in
  ∃ σ', r = Ok [ofZ 9] σ' ∧
        gameEnded σ' ∧ [ofZ 9] `suffix_of` (ofZ <$> [1; 4; 2; 5; 3; 9]) ∧
        boardInv σ'.
Proof.
  intros σ r.
  assert (∃ σ', r = Ok [ofZ 9] σ') as [σ' Hr]
    by (subst r; vm_compute; by eexists).
  exists σ'. split; [done|].
  apply (gameLoop_ends_on_win_or_tie 2 (ofZ <$> [1; 4; 2; 5; 3; 9])
           [ofZ 9] σ σ'); [lia| |done|exact Hr].
  split.
  - apply (bool_decide_unpack _). vm_compute. reflexivity.
  - exists (Some "ann"), (Some "bob"). split; vm_compute; reflexivity.
Defined.

End play.

(** * A whole session *)

Section session.

Import gameBoard render Game.

Lemma boardInv_cleared (σ : State) : shape σ → boardInv (cleared σ).
Proof.
  intros Hs. split; [by apply shape_cleared|].
  by rewrite (occupied_empty _ (grid_cleared σ Hs)).
Qed.

(** The first step of [start]: the players are set up when both are
    null. *)
Lemma start_setup (names : list jsname) (σ : State) :
  sessionInv σ →
  match (if bool_decide (player1 σ = None) && bool_decide (player2 σ = None)
         then setupPlayer names σ else Ok names σ) with
  | Ok _ σ1 => readyToPlay σ1
  | Awaiting σ1 => sessionInv σ1
  | Throw _ | OutOfFuel => False
  end.
Proof.
  intros [Hinv Hpl].
  destruct (bool_decide (player1 σ = None) && bool_decide (player2 σ = None))
    eqn:Enull.
  - destruct (setupPlayer_outcome names) as [Hout _]. specialize (Hout σ).
    destruct (setupPlayer names σ) as [rest σ1| | |σ1]; try done.
    + destruct Hout as (Hsame & Hset & _ & _).
      split; [by apply (boardInv_sameBoard σ)|done].
    + destruct Hout as (Hsame & Hp1 & Hp2 & _).
      split; [by apply (boardInv_sameBoard σ)|].
      unfold playersSet. by rewrite Hp1, Hp2.
  - split; [done|]. destruct Hpl as [[H1 H2]|Hset]; [|done].
    by rewrite !bool_decide_true in Enull.
Qed.

Lemma start_post (fuel : nat) (confirms : list bool) :
  (2 ≤ fuel)%nat →
  (∀ names cells σ, sessionInv σ →
     settled sessionInv (start fuel confirms names cells σ) ∧
     ∀ σ', start fuel confirms names cells σ = Ok tt σ' →
           last (output σ') = Some (Log "* * * GAME EXIT * * *")
           ∧ playersSet σ') ∧
  (∀ x names cells σ, sessionInv σ →
     settled sessionInv (start fuel (x :: confirms) names cells σ) ∧
     ∀ σ', start fuel (x :: confirms) names cells σ = Ok tt σ' →
           last (output σ') = Some (Log "* * * GAME EXIT * * *")
           ∧ playersSet σ').
Proof.
  intros Hf.
  assert (∀ (confirms : list bool) names cells σ,
            sessionInv σ →
            (∀ σ2, readyToPlay σ2 →
               match confirms with
               | [] => True
               | false :: _ => True
               | true :: [] => True
               | true :: rename :: confirms2 =>
                   ∀ names1 cells1,
                     let σ5 := if rename : bool
                               then set_players None None
                                      (emit (Confirm "Do you want to rename players?")
                                         (emit (Confirm "Play again?") σ2))
                               else emit (Confirm "Do you want to rename players?")
                                      (emit (Confirm "Play again?") σ2) in
                     settled sessionInv
                       (start fuel confirms2 names1 cells1 (cleared σ5)) ∧
                     ∀ σ', start fuel confirms2 names1 cells1 (cleared σ5)
                           = Ok tt σ' →
                           last (output σ')
                           = Some (Log "* * * GAME EXIT * * *")
                           ∧ playersSet σ'
               end) →
            settled sessionInv (start fuel confirms names cells σ) ∧
            ∀ σ', start fuel confirms names cells σ = Ok tt σ' →
                  last (output σ') = Some (Log "* * * GAME EXIT * * *")
                  ∧ playersSet σ') as Hbody.
  { intros confirms' names cells σ Hsess Hrec.
    pose proof (start_setup names σ Hsess) as Hsetup.
    assert (start fuel confirms' names cells σ
            = match (if bool_decide (player1 σ = None)
                        && bool_decide (player2 σ = None)
                     then setupPlayer names σ else Ok names σ) with
              | Ok names1 σ1 =>
                  match (gameLoop fuel cells σ1).2 with
                  | Ok cells1 σ2 =>
                      let σ3 := emit (Confirm "Play again?") σ2 in
                      match confirms' with
                      | [] => Awaiting σ3
                      | false :: _ =>
                          Ok tt (emit (Log "* * * GAME EXIT * * *") σ3)
                      | true :: confirms1 =>
                          let σ4 :=
                            emit (Confirm "Do you want to rename players?") σ3 in
                          match confirms1 with
                          | [] => Awaiting σ4
                          | rename :: confirms2 =>
                              let σ5 := if rename
                                        then set_players None None σ4 else σ4 in
                              match resetBoard σ5 with
                              | Ok _ σ6 => start fuel confirms2 names1 cells1 σ6
                              | Throw w => Throw w
                              | OutOfFuel => OutOfFuel
                              | Awaiting σ6 => Awaiting σ6
                              end
                          end
                      end
                  | Throw w => Throw w
                  | OutOfFuel => OutOfFuel
                  | Awaiting σ2 => Awaiting σ2
                  end
              | Throw w => Throw w
              | OutOfFuel => OutOfFuel
              | Awaiting σ1 => Awaiting σ1
              end) as -> by (by destruct confirms').
    destruct (if _ && _ then _ else _) as [names1 σ1| | |σ1]; try done.
    pose proof (gameLoop_settled fuel cells σ1 Hf Hsetup) as Hloop.
    destruct (gameLoop fuel cells σ1).2 as [cells1 σ2| | |σ2]; try done.
    2:{ cbn in Hloop. destruct Hloop as ([? ?] & _ & _).
        split; [split; [done|by right]|done]. }
    cbn in Hloop. destruct Hloop as (Hr2 & _ & _).
    specialize (Hrec σ2 Hr2). cbv zeta.
    assert (sessionInv σ2) as Hs2
      by (destruct Hr2; split; [done|by right]).
    destruct confirms' as [|[|] [|rename confirms2]].
    - split; [exact Hs2|done].
    - split; [exact Hs2|done].
    - set (σ5 := if rename then _ else _) in *.
      assert (shape σ5) as Hshape5.
      { subst σ5. destruct rename; apply Hr2. }
      rewrite (resetBoard_shape σ5 Hshape5). apply Hrec.
    - split; [exact Hs2|]. intros σ' [= <-]. split; [|apply Hr2].
      cbn [emit output]. apply last_snoc.
    - split; [exact Hs2|]. intros σ' [= <-]. split; [|apply Hr2].
      cbn [emit output]. apply last_snoc. }
  induction confirms as [|y ys [IH1 IH2]].
  - split.
    + intros names cells σ Hs. by apply Hbody.
    + intros x names cells σ Hs. apply Hbody; [done|].
      intros σ2 _. by destruct x.
  - split; [apply IH2|].
    intros x names cells σ Hs. apply Hbody; [done|].
    intros σ2 Hr2. destruct x; [|done].
    intros names1 cells1 σ5. apply IH1.
    assert (shape σ5) as Hshape5 by (subst σ5; destruct y; apply Hr2).
    split; [by apply boardInv_cleared|].
    subst σ5. destruct y; [by left|right; apply Hr2].
Qed.

(** A session begun in the initial state never throws and never runs
    out of fuel, whatever the operator answers: [start] either returns
    or is left waiting for input, and in both cases the board invariant
    holds and the players are both unset or both set.  It returns only
    by the exit branch: the last line logged is the exit line, and the
    players are set. *)
Theorem start_never_fails (fuel : nat) (confirms : list bool)
    (names : list jsname) (cells : list jsnum) :
  (2 ≤ fuel)%nat →
  settled sessionInv (start fuel confirms names cells initial) ∧
  ∀ σ', start fuel confirms names cells initial = Ok tt σ' →
        last (output σ') = Some (Log "* * * GAME EXIT * * *")
        ∧ playersSet σ' ∧ false ∈ confirms.
Proof.
  intros Hf.
  assert (sessionInv initial) as Hinit.
  { split; [apply (bool_decide_unpack _); by vm_compute|by left]. }
  destruct (start_post fuel confirms Hf) as [Hpost _].
  destruct (Hpost names cells initial Hinit) as [Hsettled Hexit].
  split; [done|]. intros σ' Hres.
  destruct (Hexit σ' Hres) as [Hlast Hset]. split; [done|]. split; [done|].
  destruct (decide (false ∈ confirms)) as [|Hnone]; [done|]. exfalso.
  (* without a "no" among the answers the session cannot return *)
  assert (∀ confirms, false ∉ confirms →
            (∀ names cells σ σ', start fuel confirms names cells σ ≠ Ok tt σ') ∧
            (∀ x, x = true →
               ∀ names cells σ σ',
                 start fuel (x :: confirms) names cells σ ≠ Ok tt σ'))
    as Hnever.
  { clear. intros confirms.
    induction confirms as [|y ys IH]; intros Hno.
    - split.
      + intros names cells σ σ'. cbn [start].
        destruct (if _ && _ then _ else _); try done.
        by destruct (gameLoop _ _ _).2.
      + intros x -> names cells σ σ'. cbn [start].
        destruct (if _ && _ then _ else _); try done.
        by destruct (gameLoop _ _ _).2.
    - assert (y = true) as ->
        by (destruct y; [done|]; exfalso; apply Hno; apply list_elem_of_here).
      assert (false ∉ ys) as Hys
        by (intros H; apply Hno; by apply list_elem_of_further).
      destruct (IH Hys) as [IH1 IH2]. split; [by apply IH2|].
      intros x -> names cells σ σ'. cbn [start].
      destruct (if _ && _ then _ else _); try done.
      destruct (gameLoop _ _ _).2; try done.
      destruct (resetBoard _); [apply IH1|done..]. }
  destruct (Hnever confirms Hnone) as [Hno _].
  by apply (Hno names cells initial σ').
Qed.

Lemma start_never_fails_witness :
  settled sessionInv
    (start 2 [true; true; false] [Some "ann"; Some "bob"; Some "cy"; None]
           (ofZ <$> [1; 4; 2; 5; 3; 5; 1; 9]) initial) ∧
  ∀ σ', start 2 [true; true; false]
              [Some "ann"; Some "bob"; Some "cy"; None]
              (ofZ <$> [1; 4; 2; 5; 3; 5; 1; 9]) initial = Ok tt σ' →
        last (output σ') = Some (Log "* * * GAME EXIT * * *")
        ∧ playersSet σ' ∧ false ∈ [true; true; false].
Proof.
  apply (start_never_fails 2 [true; true; false]
           [Some "ann"; Some "bob"; Some "cy"; None]
           (ofZ <$> [1; 4; 2; 5; 3; 5; 1; 9])).
  lia.
Defined.

End session.

(** * Placements one after another *)

Section sequences.

Import gameBoard Game.



(** [setPlayerPosition] does not check the mark it is given.  Called
    with the blank itself on a blank cell it reports success and
    increments the counter although the grid is the same as before, so
    the counter no longer equals the number of filled cells. *)
Theorem blank_mark_counts_without_filling (fuel : nat) (n : Z) (σ : State) :
  (2 ≤ fuel)%nat → boardInv σ → 1 ≤ n ≤ 9 →
  cellAt σ (Z.to_nat (specCoordinates n).1)
           (Z.to_nat (specCoordinates n).2) = Some " " →
  ∃ σ', setPlayerPosition fuel (ofZ n) " " σ = Ok true σ' ∧
        grid σ' = grid σ ∧
        filledCellCount σ' = filledCellCount σ + 1 ∧
        ¬ boardInv σ'.
Proof.
  intros Hf [Hs Hcount] Hn Hcell.
  destruct (cellAt_Some _ _ _ _ Hcell) as (l & cells & Hg & Hl & Hc & Hj).
  rewrite (setPlayerPosition_integral fuel n " " " " σ Hf Hn Hcell).
  rewrite bool_decide_true by done. eexists. split; [done|].
  unfold marked. rewrite Hl, Hc. cbn [from_option id].
  assert (grid (markCell l cells (Z.to_nat (specCoordinates n).2) " " σ)
          = grid σ) as Hgrid.
  { rewrite (grid_markCell σ _ _ l cells " " (proj1 (proj2 Hs)) Hl Hc).
    rewrite (list_insert_id cells _ " " Hj).
    apply list_insert_id. by apply (grid_lookup σ _ l cells). }
  split; [done|]. split; [cbn; lia|].
  intros [_ Hcount']. unfold occupied in Hcount'. rewrite Hgrid in Hcount'.
  fold (occupied σ) in Hcount'. cbn in Hcount'. lia.
Qed.

Lemma blank_mark_counts_without_filling_witness :
  ∃ σ', setPlayerPosition 2 (ofZ 1) " " initial = Ok true σ' ∧
        grid σ' = grid initial ∧
        filledCellCount σ' = filledCellCount initial + 1 ∧
        ¬ boardInv σ'.
Proof.
  apply (blank_mark_counts_without_filling 2 1 initial);
    [lia | apply (bool_decide_unpack _); vm_compute; reflexivity
     | lia | reflexivity].
Defined.

Lemma completes_after_call (fuel : nat) (c : jsnum) (m mark : string)
    (pos : list (nat * nat)) (b : bool) (σ σ' : State) :
  (2 ≤ fuel)%nat → shape σ → mark ≠ " " →
  setPlayerPosition fuel c m σ = Ok b σ' →
  completes σ mark pos → completes σ' mark pos.
Proof.
  intros Hf Hs Hmark Hres Hcomp.
  destruct (setPlayerPosition_cases fuel c m σ Hf Hs)
    as [Hfalse|(r & j & l & cells & Hr & Hj & Hl & Hc & Hblank & Htrue)].
  { rewrite Hfalse in Hres. by injection Hres as _ <-. }
  rewrite Htrue in Hres. injection Hres as _ <-.
  assert (markCell l cells j m σ = marked r j m σ) as ->
    by (unfold marked; by rewrite Hl, Hc).
  intros r' c' Hrc. rewrite cellAt_marked_other; [by apply Hcomp|apply Hs|].
  intros [= -> ->]. specialize (Hcomp r j Hrc).
  unfold cellAt in Hcomp.
  rewrite (grid_lookup σ r l cells Hl Hc) in Hcomp. cbn in Hcomp.
  congruence.
Qed.

(** A win is permanent: once [checkWinner] returns true for a player
    with a mark other than the blank, it still returns true after any
    further call of [setPlayerPosition], whatever the cell number, the
    mark and the result of that call. *)
Theorem win_survives_placements (fuel : nat) (c : jsnum) (m : string)
    (player : Player) (b : bool) (σ σ1 σ' : State) :
  (2 ≤ fuel)%nat → shape σ → getPlayerMark player ≠ " " →
  checkWinner player σ = Ok true σ1 →
  setPlayerPosition fuel c m σ = Ok b σ' →
  ∃ σ2, checkWinner player σ' = Ok true σ2.
Proof.
  intros Hf Hs Hmark Hwin Hres.
  rewrite (checkWinner_spec player σ Hs) in Hwin.
  injection Hwin as Hwin _.
  apply existsb_winPositions in Hwin as (pos & Hpos & Hcomp).
  assert (shape σ') as Hs'.
  { destruct (setPlayerPosition_cases fuel c m σ Hf Hs)
      as [Hfalse|(r & j & l & cells & _ & _ & _ & Hc & _ & Htrue)].
    - rewrite Hfalse in Hres. by injection Hres as _ <-.
    - rewrite Htrue in Hres. injection Hres as _ <-.
      by eapply shape_markCell. }
  rewrite (checkWinner_spec player σ' Hs'). eexists. f_equal.
  apply existsb_winPositions. exists pos. split; [done|].
  exact (completes_after_call fuel c m _ pos b σ σ' Hf Hs Hmark Hres Hcomp).
Qed.

Lemma win_survives_placements_witness :
  let ann := createPlayer (Some "ann") "X" in
  let σ := marked 0 2 "X" (marked 0 1 "X" (marked 0 0 "X" initial)) in
  ∃ σ2, checkWinner ann (marked 1 1 "O" σ) = Ok true σ2.
Proof.
  intros ann σ.
  assert (∃ σ1, checkWinner ann σ = Ok true σ1) as [σ1 Hwin]
    by (vm_compute; by eexists).
  apply (win_survives_placements 2 (ofZ 5) "O" ann true σ σ1 (marked 1 1 "O" σ));
    [lia | apply (bool_decide_unpack _); vm_compute; reflexivity
     | done | exact Hwin | vm_compute; reflexivity].
Defined.

End sequences.
